(** * protogetter: direct reads of proto message fields

    A shallow embedding of [protogetter.go].  The sources hold two
    revisions of the analyser.  The first one ([Rev1]) prunes the syntax
    tree by node kind while it walks ([inspector.Nodes]); the second one
    ([Rev2]) visits every registered node ([inspector.Preorder]) and keeps a
    positional filter.  Both work on the same syntax trees ([Ast]) and the
    same view of [go/types] ([Types]). *)

From Stdlib Require Import ZArith String Ascii List Bool Lia.
Import ListNotations.
Local Open Scope Z_scope.
Local Open Scope string_scope.
Local Open Scope list_scope.
#[local] Set Warnings "-register-all".

(** ** Syntax trees ([go/ast]) *)

Module Ast.

(** The operator tokens of [go/token] that occur in the modelled nodes. *)
Inductive token : Set :=
  | ADD | SUB | MUL | AND | XOR | NOT | ARROW | ASSIGN | DEFINE | INC | DEC.

Definition token_eqb (a b : token) : bool :=
    match a, b with
    | ADD, ADD | SUB, SUB | MUL, MUL | AND, AND | XOR, XOR | NOT, NOT
    | ARROW, ARROW | ASSIGN, ASSIGN | DEFINE, DEFINE | INC, INC | DEC, DEC => true
    | _, _ => false
    end.

(** [*ast.Ident]: a name and the position of its first byte. *)
Record Ident : Set := mkIdent { NamePos : Z; Name : string }.

(** The node kinds the analyser meets.  Positions are [token.Pos] values;
      [Sel] is an option because the code tests [se.Sel == nil]. *)
Inductive Node : Set :=
  | IdentExpr (id : Ident)
  | BasicLit (ValuePos : Z) (Value : string)
  | ParenExpr (Lparen : Z) (X : Node) (Rparen : Z)
  | SelectorExpr (X : Node) (Sel : option Ident)
  | IndexExpr (X : Node) (Index : Node) (Rbrack : Z)
  | CallExpr (Fun : Node) (Args : list Node) (Rparen : Z)
  | UnaryExpr (OpPos : Z) (Op : token) (X : Node)
  | AssignStmt (Lhs : list Node) (Tok : token) (Rhs : list Node)
  | IncDecStmt (X : Node) (TokPos : Z) (Tok : token)
  | ExprStmt (X : Node)
  | BlockStmt (Lbrace : Z) (List : list Node) (Rbrace : Z).

(** Induction over trees whose children sit in lists. *)
Section NodeInd.
Variable P : Node -> Prop.
Hypothesis HIdent : forall id, P (IdentExpr id).
Hypothesis HLit : forall p v, P (BasicLit p v).
Hypothesis HParen : forall l x r, P x -> P (ParenExpr l x r).
Hypothesis HSel : forall x s, P x -> P (SelectorExpr x s).
Hypothesis HIndex : forall x i r, P x -> P i -> P (IndexExpr x i r).
Hypothesis HCall : forall f a r, P f -> Forall P a -> P (CallExpr f a r).
Hypothesis HUnary : forall p o x, P x -> P (UnaryExpr p o x).
Hypothesis HAssign : forall l t r, Forall P l -> Forall P r -> P (AssignStmt l t r).
Hypothesis HIncDec : forall x p t, P x -> P (IncDecStmt x p t).
Hypothesis HExpr : forall x, P x -> P (ExprStmt x).
Hypothesis HBlock : forall l b r, Forall P b -> P (BlockStmt l b r).

Fixpoint Node_forall_ind (n : Node) : P n :=
      let fix all (l : list Node) : Forall P l :=
        match l with
        | [] => Forall_nil P
        | a :: l' => Forall_cons a (Node_forall_ind a) (all l')
        end in
      match n with
      | IdentExpr id => HIdent id
      | BasicLit p v => HLit p v
      | ParenExpr l x r => HParen l x r (Node_forall_ind x)
      | SelectorExpr x s => HSel x s (Node_forall_ind x)
      | IndexExpr x i r => HIndex x i r (Node_forall_ind x) (Node_forall_ind i)
      | CallExpr f a r => HCall f a r (Node_forall_ind f) (all a)
      | UnaryExpr p o x => HUnary p o x (Node_forall_ind x)
      | AssignStmt l t r => HAssign l t r (all l) (all r)
      | IncDecStmt x p t => HIncDec x p t (Node_forall_ind x)
      | ExprStmt x => HExpr x (Node_forall_ind x)
      | BlockStmt l b r => HBlock l b r (all b)
      end.
End NodeInd.

(** The dynamic type of a node, as a type switch sees it. *)
Inductive Kind : Set :=
  | KIdent | KBasicLit | KParenExpr | KSelectorExpr | KIndexExpr | KCallExpr
  | KUnaryExpr | KAssignStmt | KIncDecStmt | KExprStmt | KBlockStmt.

Definition kindOf (n : Node) : Kind :=
    match n with
    | IdentExpr _ => KIdent
    | BasicLit _ _ => KBasicLit
    | ParenExpr _ _ _ => KParenExpr
    | SelectorExpr _ _ => KSelectorExpr
    | IndexExpr _ _ _ => KIndexExpr
    | CallExpr _ _ _ => KCallExpr
    | UnaryExpr _ _ _ => KUnaryExpr
    | AssignStmt _ _ _ => KAssignStmt
    | IncDecStmt _ _ _ => KIncDecStmt
    | ExprStmt _ => KExprStmt
    | BlockStmt _ _ _ => KBlockStmt
    end.

Definition Kind_eqb (a b : Kind) : bool :=
    match a, b with
    | KIdent, KIdent | KBasicLit, KBasicLit | KParenExpr, KParenExpr
    | KSelectorExpr, KSelectorExpr | KIndexExpr, KIndexExpr
    | KCallExpr, KCallExpr | KUnaryExpr, KUnaryExpr
    | KAssignStmt, KAssignStmt | KIncDecStmt, KIncDecStmt
    | KExprStmt, KExprStmt | KBlockStmt, KBlockStmt => true
    | _, _ => false
    end.

(** The type assertion of a node to a selector expression. *)
Definition isSelectorExpr (n : Node) : bool :=
    match n with SelectorExpr _ _ => true | _ => false end.

(** [Pos()] and [End()] of [go/ast].  Where [go/ast] would index an empty
      list (an assignment without operands, which the parser never builds)
      or follow a nil [Sel], the model answers [NoPos]. *)
Definition NoPos : Z := 0.

Definition Ident_End (id : Ident) : Z := NamePos id + Z.of_nat (String.length (Name id)).

Fixpoint Pos (n : Node) : Z :=
    match n with
    | IdentExpr id => NamePos id
    | BasicLit p _ => p
    | ParenExpr l _ _ => l
    | SelectorExpr x _ => Pos x
    | IndexExpr x _ _ => Pos x
    | CallExpr f _ _ => Pos f
    | UnaryExpr p _ _ => p
    | AssignStmt l _ _ => match l with a :: _ => Pos a | [] => NoPos end
    | IncDecStmt x _ _ => Pos x
    | ExprStmt x => Pos x
    | BlockStmt l _ _ => l
    end.

Fixpoint End (n : Node) : Z :=
    match n with
    | IdentExpr id => Ident_End id
    | BasicLit p v => p + Z.of_nat (String.length v)
    | ParenExpr _ _ r => r + 1
    | SelectorExpr _ s => match s with Some id => Ident_End id | None => NoPos end
    | IndexExpr _ _ r => r + 1
    | CallExpr _ _ r => r + 1
    | UnaryExpr _ _ x => End x
    | AssignStmt _ _ r =>
        (fix last (l : list Node) : Z :=
           match l with
           | [] => NoPos
           | [a] => End a
           | _ :: l' => last l'
           end) r
    | IncDecStmt _ p _ => p + 2
    | ExprStmt x => End x
    | BlockStmt _ _ r => r + 1
    end.

(** A comment group, given by what its method [Text()] returns. *)
Record CommentGroup : Set := mkCommentGroup { Text : string }.

(** [*ast.File]: all the comment groups of the file and its declarations. *)
Record File : Set := mkFile { Comments : list CommentGroup; Decls : list Node }.

(** *** [inspector.Nodes] and [inspector.Preorder]

      [Nodes types f] walks depth first.  For a node whose kind is listed it
      calls [f n true] before the children; when that call returns [true] the
      children are walked and [f n false] follows, otherwise the subtree is
      left out.  Nodes of other kinds are walked through.  The [Sel]
      identifier of a selector is a leaf of a kind no caller registers. *)
Section Inspector.
Context {S : Type}.
Variable types : list Kind.
Variable f : Node -> bool -> S -> bool * S.

Definition listed (n : Node) : bool := existsb (Kind_eqb (kindOf n)) types.

Fixpoint Nodes (n : Node) (st : S) : S :=
      let children (st : S) : S :=
        match n with
        | IdentExpr _ | BasicLit _ _ => st
        | ParenExpr _ x _ => Nodes x st
        | SelectorExpr x _ => Nodes x st
        | IndexExpr x i _ => Nodes i (Nodes x st)
        | CallExpr fn args _ => fold_left (fun s a => Nodes a s) args (Nodes fn st)
        | UnaryExpr _ _ x => Nodes x st
        | AssignStmt l _ r =>
            fold_left (fun s a => Nodes a s) r (fold_left (fun s a => Nodes a s) l st)
        | IncDecStmt x _ _ => Nodes x st
        | ExprStmt x => Nodes x st
        | BlockStmt _ b _ => fold_left (fun s a => Nodes a s) b st
        end in
      if listed n then
        let (proceed, st1) := f n true st in
        if proceed then snd (f n false (children st1)) else st1
      else children st.

Definition NodesList (l : list Node) (st : S) : S :=
      fold_left (fun s a => Nodes a s) l st.

(** [inspector.New(files)] followed by [Nodes]: the files in order. *)
Definition NodesFiles (files : list File) (st : S) : S :=
      fold_left (fun s file => NodesList (Decls file) s) files st.
End Inspector.

(** The child nodes of a node, in source order. *)
Definition children (n : Node) : list Node :=
  match n with
  | IdentExpr _ | BasicLit _ _ => []
  | ParenExpr _ x _ => [x]
  | SelectorExpr x _ => [x]
  | IndexExpr x i _ => [x; i]
  | CallExpr fn args _ => fn :: args
  | UnaryExpr _ _ x => [x]
  | AssignStmt l _ r => l ++ r
  | IncDecStmt x _ _ => [x]
  | ExprStmt x => [x]
  | BlockStmt _ b _ => b
  end.

(** The nodes of a tree in depth-first pre-order. *)
Fixpoint preorder (n : Node) : list Node :=
    n ::
    match n with
    | IdentExpr _ | BasicLit _ _ => []
    | ParenExpr _ x _ => preorder x
    | SelectorExpr x _ => preorder x
    | IndexExpr x i _ => preorder x ++ preorder i
    | CallExpr fn args _ => preorder fn ++ flat_map preorder args
    | UnaryExpr _ _ x => preorder x
    | AssignStmt l _ r => flat_map preorder l ++ flat_map preorder r
    | IncDecStmt x _ _ => preorder x
    | ExprStmt x => preorder x
    | BlockStmt _ b _ => flat_map preorder b
    end.

(** [Preorder types f]: [f] on every node of a listed kind, in pre-order. *)
Definition Preorder {S : Type} (types : list Kind) (f : Node -> S -> S)
      (files : list File) (st : S) : S :=
    fold_left (fun s n => f n s)
      (filter (listed types) (flat_map (fun file => flat_map preorder (Decls file)) files))
      st.

(** [subsequence l1 l2]: [l1] is [l2] with some elements left out. *)
Inductive subsequence {A : Type} : list A -> list A -> Prop :=
| subsequence_nil : subsequence [] []
| subsequence_skip (x : A) (l1 l2 : list A) :
    subsequence l1 l2 -> subsequence l1 (x :: l2)
| subsequence_keep (x : A) (l1 l2 : list A) :
    subsequence l1 l2 -> subsequence (x :: l1) (x :: l2).

End Ast.

(** ** The view of [go/types] the analyser needs *)

Module Types.
Import Ast.

(** Types as far as [methodExists] looks at them: a named type carries the
    names of its declared methods and its underlying type. *)
Inductive GoType : Set :=
| Basic (name : string)
| Struct (fields : list string)
| Pointer (elem : GoType)
| Named (name : string) (methods : list string) (underlying : GoType).

Definition Underlying (t : GoType) : GoType :=
  match t with
  | Named _ _ u => u
  | _ => t
  end.

(** [*types.Info], through its method [TypeOf]; [None] is the nil type of an
    expression the checker recorded nothing for. *)
Record Info : Set := mkInfo { TypeOf : Node -> option GoType }.

End Types.

(** [strings.HasPrefix] *)
Definition HasPrefix (s prefix : string) : bool := String.prefix prefix s.

(** [isGeneratedFile], the same in both revisions: it ranges over all the
    comment groups of the file. *)
Definition isGeneratedFile (f : Ast.File) : bool :=
  existsb (fun c => HasPrefix (Ast.Text c) "Code generated") (Ast.Comments f).

(** ** First revision: pruning by node kind *)

Module Rev1.
Import Ast Types.

Definition Mode : Set := Z.
Definition StandaloneMode : Mode := 0.
Definition GolangciLintMode : Mode := 1.

Record Edit : Set := mkEdit {
  Edit_Range : Ident;
  Edit_From : string;
  Edit_To : string
}.

Record Report : Set := mkReport {
  Range : Node;
  From : string;
  To : string;
  SelectorEdit : Edit
}.

(** [methodExists]: the type of [x], through one pointer, is a named type
    that declares a method called [name]. *)
Definition methodExists (info : option Info) (x : Node) (name : string) : bool :=
  match info with
  | None => false
  | Some info =>
      match TypeOf info x with
      | None => false
      | Some t =>
          let t := match Underlying t with
                   | Pointer elem => elem
                   | _ => t
                   end in
          match t with
          | Named _ methods _ => existsb (String.eqb name) methods
          | _ => false
          end
      end
  end.

(** [isProtoMessage]: the two markers and the exception for the generator
    whose accessors do not check for nil. *)
Definition isProtoMessage (info : option Info) (expr : Node) : bool :=
  let protoV2Method := "ProtoReflect" in
  if methodExists info expr protoV2Method then true
  else
    let protoV1Method := "ProtoMessage" in
    if methodExists info expr protoV1Method then
      let protocGenGoGoMethod := "MarshalToSizedBuffer" in
      negb (methodExists info expr protocGenGoGoMethod)
    else false.

(** What the sources take from outside: [format.Node] of [go/format]
    printing into a buffer (the text, or [None] for the error), and the two
    adapters of a report, which are declared in another file. *)
Class Host : Type := mkHost {
  FileSet : Type;
  format_Node : FileSet -> Node -> option string;
  Diagnostic : Type;
  Issue : Type;
  ToAnalysisDiagnostic : Report -> Diagnostic;
  ToIssue : Report -> FileSet -> Issue
}.

Section Analysis.
Context `{Host}.

(** The analysis pass: its files, type information and file set; what
    [pass.Report] receives is collected in the state of the run. *)
Record Pass : Type := mkPass {
  Files : list File;
  TypesInfo : option Info;
  Fset : FileSet
}.

Definition formatNode (fset : FileSet) (node : Node) : string :=
  match format_Node fset node with
  | None => EmptyString
  | Some s => s
  end.

(** [analyzeSelectorExpr] on the selector [X.Sel]. *)
Definition analyzeSelectorExpr (pass : Pass) (X : Node) (Sel : option Ident)
    : option Report :=
  if negb (isProtoMessage (TypesInfo pass) X) then None
  else
    match Sel with
    | None => None
    | Some sel =>
        if HasPrefix (Name sel) "Get" then None
        else if methodExists (TypesInfo pass) X ("Get" ++ Name sel) then
          Some {| Range := SelectorExpr X Sel;
                  From := formatNode (Fset pass) (SelectorExpr X Sel);
                  To := formatNode (Fset pass) X ++ ".Get" ++ Name sel ++ "()";
                  SelectorEdit := {| Edit_Range := sel;
                                     Edit_From := Name sel;
                                     Edit_To := "Get" ++ Name sel ++ "()" |} |}
        else None
    end.

(** What a run produces: the diagnostics handed to [pass.Report] and the
    issues it returns, both in the order of the walk. *)
Definition RunState : Type := (list Diagnostic * list Issue)%type.

Definition nodeTypes : list Kind :=
  [KAssignStmt; KIncDecStmt; KUnaryExpr; KSelectorExpr].

(** The callback of [Run].  [Nodes] calls it on the four listed kinds only. *)
Definition visit (pass : Pass) (mode : Mode) (node : Node) (push : bool)
    (st : RunState) : bool * RunState :=
  if negb push then (false, st)
  else
    match node with
    | AssignStmt Lhs _ _ =>
        if existsb isSelectorExpr Lhs then (false, st) else (true, st)
    | IncDecStmt _ _ _ => (false, st)
    | UnaryExpr _ Op _ => (negb (token_eqb Op AND), st)
    | SelectorExpr X Sel =>
        match analyzeSelectorExpr pass X Sel with
        | None => (true, st)
        | Some report =>
            if Z.eqb mode StandaloneMode then
              (true, (fst st ++ [ToAnalysisDiagnostic report], snd st))
            else if Z.eqb mode GolangciLintMode then
              (true, (fst st, snd st ++ [ToIssue report (Fset pass)]))
            else (true, st)
        end
    | _ => (true, st)
    end.

Definition Run (pass : Pass) (mode : Mode) : RunState :=
  let files := filter (fun f => negb (isGeneratedFile f)) (Files pass) in
  NodesFiles nodeTypes (visit pass mode) files ([], []).

(** The reports of a walk, as a function of the tree alone. *)
Fixpoint reports (pass : Pass) (n : Node) : list Report :=
  match n with
  | IdentExpr _ | BasicLit _ _ => []
  | ParenExpr _ x _ => reports pass x
  | SelectorExpr x s =>
      match analyzeSelectorExpr pass x s with
      | None => reports pass x
      | Some r => r :: reports pass x
      end
  | IndexExpr x i _ => reports pass x ++ reports pass i
  | CallExpr fn args _ => reports pass fn ++ flat_map (reports pass) args
  | UnaryExpr _ op x => if token_eqb op AND then [] else reports pass x
  | AssignStmt l _ r =>
      if existsb isSelectorExpr l then []
      else flat_map (reports pass) l ++ flat_map (reports pass) r
  | IncDecStmt _ _ _ => []
  | ExprStmt x => reports pass x
  | BlockStmt _ b _ => flat_map (reports pass) b
  end.

(** The reports of a run: those of the declarations of the files that are
    not generated, file by file. *)
Definition runReports (pass : Pass) : list Report :=
  flat_map (fun f => flat_map (reports pass) (Decls f))
    (filter (fun f => negb (isGeneratedFile f)) (Files pass)).

(** The accessor call that replaces a field identifier: [SelectorEdit]
    puts [Get], the field name and an empty argument list where the
    identifier stood. *)
Definition getter (sel : Ident) : Ident :=
  {| NamePos := NamePos sel; Name := "Get" ++ Name sel |}.

(** The tree after the selector edits of all the reports of a walk have been
    applied: each reported selector [X.Sel] has become the call
    [X.GetSel()], with the edits inside [X] applied as well; what the walk
    leaves out is left as it is.  Positions of untouched nodes are kept,
    the walk does not read them. *)
Fixpoint applyFixes (pass : Pass) (n : Node) : Node :=
  match n with
  | IdentExpr _ | BasicLit _ _ => n
  | ParenExpr l x r => ParenExpr l (applyFixes pass x) r
  | SelectorExpr x s =>
      match analyzeSelectorExpr pass x s, s with
      | Some _, Some sel =>
          CallExpr (SelectorExpr (applyFixes pass x) (Some (getter sel))) []
            (Ident_End (getter sel) + 1)
      | _, _ => SelectorExpr (applyFixes pass x) s
      end
  | IndexExpr x i r => IndexExpr (applyFixes pass x) (applyFixes pass i) r
  | CallExpr fn args r => CallExpr (applyFixes pass fn) (map (applyFixes pass) args) r
  | UnaryExpr p op x => if token_eqb op AND then n else UnaryExpr p op (applyFixes pass x)
  | AssignStmt l t r =>
      if existsb isSelectorExpr l then n
      else AssignStmt (map (applyFixes pass) l) t (map (applyFixes pass) r)
  | IncDecStmt _ _ _ => n
  | ExprStmt x => ExprStmt (applyFixes pass x)
  | BlockStmt l b r => BlockStmt l (map (applyFixes pass) b) r
  end.

Definition applyFixesFile (pass : Pass) (f : File) : File :=
  {| Comments := Comments f; Decls := map (applyFixes pass) (Decls f) |}.

(** How a report enters the state of the run. *)
Definition emit (pass : Pass) (mode : Mode) (st : RunState) (r : Report) : RunState :=
  if Z.eqb mode StandaloneMode then (fst st ++ [ToAnalysisDiagnostic r], snd st)
  else if Z.eqb mode GolangciLintMode then (fst st, snd st ++ [ToIssue r (Fset pass)])
  else st.

(** [*analysis.Analyzer], with what its [Run] hands to [pass.Report] beside
    the result and the error it returns ([None] for nil). *)
Record Analyzer : Type := mkAnalyzer {
  Analyzer_Name : string;
  Analyzer_Doc : string;
  Analyzer_Run : Pass -> list Diagnostic * (option unit * option string)
}.

Definition NewAnalyzer : Analyzer :=
  {| Analyzer_Name := "protogetter";
     Analyzer_Doc := "Reports direct reads from proto message fields when getters should be used";
     Analyzer_Run := fun pass => (fst (Run pass StandaloneMode), (None, None)) |}.

End Analysis.
End Rev1.

(** ** Second revision: every registered node, with a positional filter *)

Module Rev2.
Import Ast Types.

Definition Mode : Set := Z.
Definition StandaloneMode : Mode := 0.
Definition GolangciLintMode : Mode := 1.

Definition msgFormat : string := "avoid direct access to proto field %q use %q".

(** [token.Position] *)
Record Position : Set := mkPosition {
  Filename : string;
  Offset : Z;
  Line : Z;
  Column : Z
}.

Record InlineFix : Set := mkInlineFix {
  StartCol : Z;
  Length : Z;
  NewString : string
}.

Record Issue : Set := mkIssue {
  Issue_Pos : Position;
  Issue_Message : string;
  Issue_InlineFix : InlineFix
}.

(** [analysis.TextEdit], [analysis.SuggestedFix] and [analysis.Diagnostic] *)
Record TextEdit : Set := mkTextEdit {
  Edit_Pos : Z;
  Edit_End : Z;
  Edit_NewText : string
}.

Record SuggestedFix : Set := mkSuggestedFix {
  Fix_Message : string;
  Fix_TextEdits : list TextEdit
}.

Record Diagnostic : Set := mkDiagnostic {
  Diag_Pos : Z;
  Diag_End : Z;
  Diag_Message : string;
  Diag_SuggestedFixes : list SuggestedFix
}.

(** The result of [Process]; the sources read its fields [From] and [To]. *)
Record Result : Set := mkResult { From : string; To : string }.

Record Report : Set := mkReport { node : Node; result : Result }.

(** Modelled from the spec: the type [PosFilter] with [NewPosFilter],
    [IsFiltered], [IsAlreadyReplaced] and [AddAlreadyReplaced] is missing
    from the sources.  The spec gives the contract [IsFiltered(pos)],
    [IsAlreadyReplaced(range)], [Register(range)]: a registry of half-open
    ranges, queried by a containment test that suppresses a candidate lying
    inside a registered range as well as one enclosing it.  Positions are
    [token.Pos] values, which are byte offsets into the file set. *)
Record PosFilter : Set := mkPosFilter {
  positions : list Z;
  alreadyReplaced : list (Z * Z)
}.

Definition NewPosFilter : PosFilter :=
  {| positions := []; alreadyReplaced := [] |}.

Definition IsFiltered (f : PosFilter) (pos : Z) : bool :=
  existsb (Z.eqb pos) (positions f).

Definition AddPos (f : PosFilter) (pos : Z) : PosFilter :=
  {| positions := pos :: positions f; alreadyReplaced := alreadyReplaced f |}.

(** [covers a b]: the half-open range [b] lies inside [a]. *)
Definition covers (a b : Z * Z) : bool :=
  Z.leb (fst a) (fst b) && Z.leb (snd b) (snd a).

Definition IsAlreadyReplaced (f : PosFilter) (pos end_ : Z) : bool :=
  existsb (fun r => covers r (pos, end_) || covers (pos, end_) r) (alreadyReplaced f).

Definition AddAlreadyReplaced (f : PosFilter) (pos end_ : Z) : PosFilter :=
  {| positions := positions f; alreadyReplaced := alreadyReplaced f ++ [(pos, end_)] |}.

(** The source range of a node, half-open; two ranges are disjoint when one
    ends before the other begins, and laminar when they are nested or
    disjoint, as the ranges of the nodes of one syntax tree are. *)
Definition range (n : Node) : Z * Z := (Pos n, End n).

Definition disjoint (a b : Z * Z) : Prop := snd a <= fst b \/ snd b <= fst a.

Definition laminar (a b : Z * Z) : Prop :=
  covers a b = true \/ covers b a = true \/ disjoint a b.

(** Positions as a parser lays them out: the range of every child lies
    inside the range of its parent, and the ranges of two children of one
    node are disjoint. *)
Inductive wellFormed : Node -> Prop :=
| wellFormed_node (n : Node) :
    Forall wellFormed (children n) ->
    Forall (fun c => covers (range n) (range c) = true) (children n) ->
    ForallOrdPairs (fun a b => disjoint (range a) (range b)) (children n) ->
    wellFormed n.

(** The top-level nodes of the files of a pass are well formed and lie apart. *)
Definition wellFormedForest (l : list Node) : Prop :=
  Forall wellFormed l
  /\ ForallOrdPairs (fun a b => disjoint (range a) (range b)) l.

(** What the sources take from outside.  [Quote] is [strconv.Quote], the
    verb [%q] of [fmt]; [fset_Position] is the method [Position] of [token.FileSet].
    [Skipped] and [Process] belong to this package but are missing from the
    sources: [Process] reads the type information, the filter and the node,
    and answers a result or an error; it changes the filter by marking
    positions only, the registry of replaced ranges being filled as findings
    are accepted. *)
Class Host : Type := mkHost {
  Quote : string -> string;
  FileSet : Type;
  fset_Position : FileSet -> Z -> Position;
  Skipped : Result -> bool;
  Process : option Info -> PosFilter -> Node -> list Z * (Result + string)
}.

Section Analysis.
Context `{Host}.

(** [fmt.Sprintf] on string operands, for the verbs the sources use. *)
Fixpoint Sprintf (format : string) (args : list string) : string :=
  (match format with
  | EmptyString =>
      match args with
      | [] => EmptyString
      | _ => "%!(EXTRA " ++ String.concat ", " (map (fun a => "string=" ++ a) args) ++ ")"
      end
  | String "%" (String verb rest) =>
      if Ascii.eqb verb "%" then String "%" (Sprintf rest args)
      else
        match args with
        | [] => "%!" ++ String verb "(MISSING)" ++ Sprintf rest []
        | a :: args' =>
            if Ascii.eqb verb "q" then Quote a ++ Sprintf rest args'
            else if Ascii.eqb verb "s" || Ascii.eqb verb "v" then a ++ Sprintf rest args'
            else "%!" ++ String verb ("(string=" ++ a ++ ")") ++ Sprintf rest args'
        end
  | String c rest => String c (Sprintf rest args)
  end)%string.

Record Pass : Type := mkPass {
  Files : list File;
  TypesInfo : option Info;
  Fset : FileSet
}.

Definition ToDiagReport (r : Report) : Diagnostic :=
  let msg := Sprintf msgFormat [From (result r); To (result r)] in
  {| Diag_Pos := Pos (node r);
     Diag_End := End (node r);
     Diag_Message := msg;
     Diag_SuggestedFixes :=
       [ {| Fix_Message := msg;
            Fix_TextEdits :=
              [ {| Edit_Pos := Pos (node r);
                   Edit_End := End (node r);
                   Edit_NewText := To (result r) |} ] |} ] |}.

Definition ToIssue (r : Report) (fset : FileSet) : Issue :=
  let msg := Sprintf msgFormat [From (result r); To (result r)] in
  {| Issue_Pos := fset_Position fset (Pos (node r));
     Issue_Message := msg;
     Issue_InlineFix :=
       {| StartCol := Column (fset_Position fset (Pos (node r))) - 1;
          Length := Z.of_nat (String.length (From (result r)));
          NewString := To (result r) |} |}.

(** The diagnostic [analyse] hands to [pass.Report] when [Process] fails. *)
Definition errorDiagnostic (n : Node) (err : string) : Diagnostic :=
  {| Diag_Pos := Pos n;
     Diag_End := End n;
     Diag_Message := Sprintf "error: %v" [err];
     Diag_SuggestedFixes := [] |}.

(** [analyse]: the filter and the diagnostics reported so far go in and come
    out; the report is [None] for nil. *)
Definition analyse (pass : Pass) (filter : PosFilter) (reported : list Diagnostic)
    (n : Node) : PosFilter * list Diagnostic * option Report :=
  if IsFiltered filter (Pos n) then (filter, reported, None)
  else
    let (marked, outcome) := Process (TypesInfo pass) filter n in
    let filter := fold_left AddPos marked filter in
    match outcome with
    | inr err => (filter, reported ++ [errorDiagnostic n err], None)
    | inl result =>
        if IsFiltered filter (Pos n) then (filter, reported, None)
        else if Skipped result then (filter, reported, None)
        else if IsAlreadyReplaced filter (Pos n) (End n) then (filter, reported, None)
        else (AddAlreadyReplaced filter (Pos n) (End n), reported,
              Some {| node := n; result := result |})
    end.

Record RunState : Type := mkRunState {
  filter_ : PosFilter;
  reported_ : list Diagnostic;
  issues_ : list Issue
}.

Definition nodeTypes : list Kind :=
  [KAssignStmt; KCallExpr; KSelectorExpr; KIncDecStmt; KUnaryExpr].

(** The callback of [Run]. *)
Definition visit (pass : Pass) (mode : Mode) (n : Node) (st : RunState) : RunState :=
  let '(filter, reported, report) := analyse pass (filter_ st) (reported_ st) n in
  match report with
  | None => {| filter_ := filter; reported_ := reported; issues_ := issues_ st |}
  | Some report =>
      if Z.eqb mode StandaloneMode then
        {| filter_ := filter;
           reported_ := reported ++ [ToDiagReport report];
           issues_ := issues_ st |}
      else if Z.eqb mode GolangciLintMode then
        {| filter_ := filter;
           reported_ := reported;
           issues_ := issues_ st ++ [ToIssue report (Fset pass)] |}
      else {| filter_ := filter; reported_ := reported; issues_ := issues_ st |}
  end.

(** [Run] returns [issues_]; [reported_] is what [pass.Report] received and
    [filter_] the filter when the walk ends. *)
Definition Run (pass : Pass) (mode : Mode) : RunState :=
  let files := filter (fun f => negb (isGeneratedFile f)) (Files pass) in
  Preorder nodeTypes (visit pass mode) files
    {| filter_ := NewPosFilter; reported_ := []; issues_ := [] |}.

(** The nodes [Run] hands to [analyse], in the order of the walk. *)
Definition candidates (pass : Pass) : list Node :=
  let files := filter (fun f => negb (isGeneratedFile f)) (Files pass) in
  filter (listed nodeTypes) (flat_map (fun file => flat_map preorder (Decls file)) files).

(** The reports [analyse] accepts along a list of nodes. *)
Fixpoint accepted (pass : Pass) (filter : PosFilter) (nodes : list Node) : list Report :=
  match nodes with
  | [] => []
  | n :: rest =>
      let '(filter', _, report) := analyse pass filter [] n in
      match report with
      | None => accepted pass filter' rest
      | Some r => r :: accepted pass filter' rest
      end
  end.

(** A diagnostic that carries a suggested fix: the ones [ToDiagReport]
    builds do, the one [analyse] reports for an error does not. *)
Definition hasFix (d : Diagnostic) : bool :=
  match Diag_SuggestedFixes d with
  | [] => false
  | _ :: _ => true
  end.

(** [*analysis.Analyzer], with what its [Run] hands to [pass.Report] beside
    the result and the error it returns ([None] for nil). *)
Record Analyzer : Type := mkAnalyzer {
  Analyzer_Name : string;
  Analyzer_Doc : string;
  Analyzer_Run : Pass -> list Diagnostic * (option unit * option string)
}.

Definition NewAnalyzer : Analyzer :=
  {| Analyzer_Name := "protogetter";
     Analyzer_Doc := "Reports direct reads from proto message fields when getters should be used";
     Analyzer_Run := fun pass => (reported_ (Run pass StandaloneMode), (None, None)) |}.

End Analysis.
End Rev2.

(** ** Concrete collaborators

    A printer, a quoting function and type information to run both
    revisions on small programs. *)

Module Demo.
Import Ast Types.

Definition tokenString (t : token) : string :=
  match t with
  | ADD => "+" | SUB => "-" | MUL => "*" | AND => "&" | XOR => "^" | NOT => "!"
  | ARROW => "<-" | ASSIGN => "=" | DEFINE => ":=" | INC => "++" | DEC => "--"
  end.

Definition newline : string := String (ascii_of_nat 10) EmptyString.
Definition tab : string := String (ascii_of_nat 9) EmptyString.

Fixpoint tabs (depth : nat) : string :=
  match depth with
  | O => EmptyString
  | S d => (tab ++ tabs d)%string
  end.

(** The text [gofmt] prints for the modelled nodes, at a nesting depth.  A
    selector without [Sel] and an assignment without operands are malformed
    and make the printer fail. *)
Fixpoint printAt (depth : nat) (n : Node) : option string :=
  let fix printList (l : list Node) : option (list string) :=
    match l with
    | [] => Some []
    | a :: l' =>
        match printAt depth a, printList l' with
        | Some s, Some ss => Some (s :: ss)
        | _, _ => None
        end
    end in
  let fix printStmts (l : list Node) : option string :=
    match l with
    | [] => Some EmptyString
    | a :: l' =>
        match printAt (S depth) a, printStmts l' with
        | Some s, Some ss => Some (newline ++ tabs (S depth) ++ s ++ ss)%string
        | _, _ => None
        end
    end in
  match n with
  | IdentExpr id => Some (Name id)
  | BasicLit _ v => Some v
  | ParenExpr _ x _ =>
      match printAt depth x with
      | Some s => Some ("(" ++ s ++ ")")%string
      | None => None
      end
  | SelectorExpr x sel =>
      match printAt depth x, sel with
      | Some s, Some id => Some (s ++ "." ++ Name id)%string
      | _, _ => None
      end
  | IndexExpr x i _ =>
      match printAt depth x, printAt depth i with
      | Some s, Some t => Some (s ++ "[" ++ t ++ "]")%string
      | _, _ => None
      end
  | CallExpr fn args _ =>
      match printAt depth fn, printList args with
      | Some s, Some ss => Some (s ++ "(" ++ String.concat ", " ss ++ ")")%string
      | _, _ => None
      end
  | UnaryExpr _ op x =>
      match printAt depth x with
      | Some s => Some (tokenString op ++ s)%string
      | None => None
      end
  | AssignStmt l tok r =>
      match l, r, printList l, printList r with
      | _ :: _, _ :: _, Some ls, Some rs =>
          Some (String.concat ", " ls ++ " " ++ tokenString tok ++ " "
                ++ String.concat ", " rs)%string
      | _, _, _, _ => None
      end
  | IncDecStmt x _ tok =>
      match printAt depth x with
      | Some s => Some (s ++ tokenString tok)%string
      | None => None
      end
  | ExprStmt x => printAt depth x
  | BlockStmt _ b _ =>
      match printStmts b with
      | Some s => Some ("{" ++ s ++ newline ++ tabs depth ++ "}")%string
      | None => None
      end
  end.

Definition printNode (n : Node) : option string := printAt 0 n.

(** [strconv.Quote] on printable ASCII text, with the escapes of the
    quote, the backslash, the newline and the tab. *)
Definition dquote : ascii := ascii_of_nat 34.
Definition backslash : ascii := ascii_of_nat 92.

Fixpoint escape (s : string) : string :=
  match s with
  | EmptyString => EmptyString
  | String c rest =>
      if Ascii.eqb c dquote || Ascii.eqb c backslash then
        String backslash (String c (escape rest))
      else if Ascii.eqb c (ascii_of_nat 10) then String backslash (String "n" (escape rest))
      else if Ascii.eqb c (ascii_of_nat 9) then String backslash (String "t" (escape rest))
      else String c (escape rest)
  end.

Definition asciiQuote (s : string) : string :=
  String dquote (escape s ++ String dquote EmptyString).

(** Type information giving one type to every expression. *)
Definition constInfo (t : GoType) : option Info :=
  Some {| TypeOf := fun _ => Some t |}.

(** A pointer to a generated message with the given methods. *)
Definition message (methods : list string) : GoType :=
  Pointer (Named "Message" methods (Struct ["Name"; "Field"; "B"; "C"])).

#[local] Instance host1 : Rev1.Host := {|
  Rev1.FileSet := unit;
  Rev1.format_Node := fun _ => printNode;
  Rev1.Diagnostic := Rev1.Report;
  Rev1.Issue := Rev1.Report;
  Rev1.ToAnalysisDiagnostic := fun r => r;
  Rev1.ToIssue := fun r _ => r
|}.

Definition pass1 (info : option Info) (files : list File) : Rev1.Pass :=
  {| Rev1.Files := files; Rev1.TypesInfo := info; Rev1.Fset := tt |}.

(** A result that carries no replacement. *)
Definition skippedResult : Rev2.Result :=
  {| Rev2.From := EmptyString; Rev2.To := EmptyString |}.

(** Modelled from the spec: [Process] and [Skipped] are missing from the
    sources.  For a selector the capability oracle of section 4.2 decides
    (getter-named fields are rejected, the type must be a message in scope
    and declare the accessor) and the synthesizer of section 4.3 gives the
    two texts, a printing failure being the synthesis failure of section 7;
    every other node gets a result that is skipped. *)
Definition specProcess (info : option Info) (filter : Rev2.PosFilter) (n : Node)
    : list Z * (Rev2.Result + string) :=
  match n with
  | SelectorExpr x (Some sel) =>
      if negb (HasPrefix (Name sel) "Get")
         && Rev1.isProtoMessage info x
         && Rev1.methodExists info x ("Get" ++ Name sel)
      then
        match printNode n, printNode x with
        | Some from, Some base =>
            ([], inl {| Rev2.From := from;
                        Rev2.To := (base ++ ".Get" ++ Name sel ++ "()")%string |})
        | _, _ => ([], inr "cannot print the expression")
        end
      else ([], inl skippedResult)
  | _ => ([], inl skippedResult)
  end.

Definition specSkipped (r : Rev2.Result) : bool :=
  String.eqb (Rev2.To r) EmptyString.

#[local] Instance host2 : Rev2.Host := {|
  Rev2.Quote := asciiQuote;
  Rev2.FileSet := unit;
  Rev2.fset_Position := fun _ p =>
    {| Rev2.Filename := "demo.go"; Rev2.Offset := p - 1; Rev2.Line := 1; Rev2.Column := p |};
  Rev2.Skipped := specSkipped;
  Rev2.Process := specProcess
|}.

Definition pass2 (info : option Info) (files : list File) : Rev2.Pass :=
  {| Rev2.Files := files; Rev2.TypesInfo := info; Rev2.Fset := tt |}.

(** Identifiers and selectors laid out on one line from column 1. *)
Definition ident (pos : Z) (name : string) : Node := IdentExpr (mkIdent pos name).

Definition sel (x : Node) (name : string) : Node :=
  SelectorExpr x (Some (mkIdent (End x + 1) name)).

(** [msg.Name], [a.B.C] and [m[t.Field]++] *)
Definition msg_Name : Node := sel (ident 1 "msg") "Name".
Definition a_B : Node := sel (ident 1 "a") "B".
Definition a_B_C : Node := sel a_B "C".
Definition t_Field : Node := sel (ident 3 "t") "Field".
Definition m_t_Field : Node := IndexExpr (ident 1 "m") t_Field 10.
Definition m_t_Field_inc : Node := IncDecStmt m_t_Field 11 INC.

(** Every expression is a message with accessors for the fields used here. *)
Definition protoInfo : option Info :=
  constInfo (message ["ProtoReflect"; "GetName"; "GetField"; "GetB"; "GetC"]).

(** A file with the statements [a.B.C], [msg.Name = a.B] and [m[t.Field]++]. *)
Definition demoFile : File :=
  mkFile [] [ExprStmt a_B_C; AssignStmt [msg_Name] ASSIGN [a_B]; m_t_Field_inc].

End Demo.

(** * Properties *)

(** ** Properties of the first revision *)

Module Rev1Props.
Import Ast Types Rev1.

Lemma token_eqb_eq (a b : token) : token_eqb a b = true <-> a = b.
Proof. destruct a, b; simpl; split; intro E; try reflexivity; discriminate E. Qed.

Section Walk.
Context `{Host}.
Variables (pass : Pass) (mode : Mode).

Lemma emit_app (l1 l2 : list Report) (st : RunState) :
  fold_left (emit pass mode) (l1 ++ l2) st
  = fold_left (emit pass mode) l2 (fold_left (emit pass mode) l1 st).
Proof. apply fold_left_app. Qed.

(** A list of nodes is walked node by node. *)
Lemma NodesList_emit (l : list Node) :
  Forall (fun n => forall st, Nodes nodeTypes (visit pass mode) n st
                              = fold_left (emit pass mode) (reports pass n) st) l ->
  forall st, fold_left (fun s a => Nodes nodeTypes (visit pass mode) a s) l st
             = fold_left (emit pass mode) (flat_map (reports pass) l) st.
Proof.
  induction 1 as [|n l Hn _ IH]; intro st; simpl.
  - reflexivity.
  - rewrite Hn, IH, emit_app. reflexivity.
Qed.

(** On a selector the callback always lets the walk go on. *)
Lemma visit_selector (x : Node) (s : option Ident) (st : RunState) :
  visit pass mode (SelectorExpr x s) true st
  = (true, match analyzeSelectorExpr pass x s with
           | None => st
           | Some r => emit pass mode st r
           end).
Proof.
  unfold visit, emit; cbn -[analyzeSelectorExpr].
  destruct (analyzeSelectorExpr pass x s) as [r|]; [|reflexivity].
  destruct (Z.eqb mode StandaloneMode); [reflexivity|].
  destruct (Z.eqb mode GolangciLintMode); reflexivity.
Qed.

(** The walk of [Run] hands exactly [reports] to the state, in order. *)
Lemma Nodes_emit (n : Node) :
  forall st, Nodes nodeTypes (visit pass mode) n st
             = fold_left (emit pass mode) (reports pass n) st.
Proof.
  induction n using Node_forall_ind; intro st.
  - reflexivity.
  - reflexivity.
  - apply IHn.
  - cbn -[analyzeSelectorExpr visit emit]. rewrite visit_selector.
    destruct (analyzeSelectorExpr pass n s) as [r|]; cbn -[emit visit]; apply IHn.
  - cbn. rewrite IHn1, IHn2, emit_app. reflexivity.
  - cbn. rewrite IHn, NodesList_emit, emit_app by assumption. reflexivity.
  - cbn. destruct (token_eqb o AND); cbn; [reflexivity | apply IHn].
  - cbn. destruct (existsb isSelectorExpr l); cbn; [reflexivity|].
    rewrite !NodesList_emit, emit_app by assumption. reflexivity.
  - reflexivity.
  - apply IHn.
  - apply NodesList_emit. assumption.
Qed.

(** [Run] on the files that are not generated. *)
Lemma Run_reports :
  Run pass mode
  = fold_left (emit pass mode)
      (flat_map (fun f => flat_map (reports pass) (Decls f))
         (filter (fun f => negb (isGeneratedFile f)) (Files pass)))
      ([], []).
Proof.
  unfold Run, NodesFiles, NodesList.
  generalize (@nil Diagnostic, @nil Issue).
  induction (filter (fun f => negb (isGeneratedFile f)) (Files pass)) as [|f fs IH];
    intro st; simpl.
  - reflexivity.
  - rewrite IH, emit_app. f_equal.
    apply NodesList_emit, Forall_forall. intros n _. apply Nodes_emit.
Qed.

(** Without type information for the base, no capability is found. *)
Lemma methodExists_untyped (info : option Info) (x : Node) (name : string) :
  info = None \/ (exists i, info = Some i /\ TypeOf i x = None) ->
  methodExists info x name = false.
Proof.
  intros [-> | [i [-> Hx]]]; unfold methodExists; [reflexivity|].
  rewrite Hx. reflexivity.
Qed.

Lemma analyzeSelectorExpr_not_message (x : Node) (s : option Ident) :
  isProtoMessage (TypesInfo pass) x = false -> analyzeSelectorExpr pass x s = None.
Proof. intro E. unfold analyzeSelectorExpr. rewrite E. reflexivity. Qed.

(** With nil type information a walk reports nothing. *)
Lemma reports_nil_info (n : Node) :
  TypesInfo pass = None -> reports pass n = [].
Proof.
  intro E.
  assert (flat : forall l, Forall (fun n => reports pass n = []) l ->
                           flat_map (reports pass) l = []).
  { induction 1 as [|a l Ha _ IH]; simpl; [reflexivity|]. rewrite Ha, IH. reflexivity. }
  induction n using Node_forall_ind; simpl; auto.
  - rewrite analyzeSelectorExpr_not_message; [assumption|].
    rewrite E. reflexivity.
  - rewrite IHn1, IHn2. reflexivity.
  - rewrite IHn, flat by assumption. reflexivity.
  - destruct (token_eqb o AND); auto.
  - destruct (existsb isSelectorExpr l); [reflexivity|].
    rewrite !flat by assumption. reflexivity.
Qed.

Lemma methodExists_typed (info : option Info) (x : Node) (name : string) :
  methodExists info x name = true ->
  exists i t, info = Some i /\ TypeOf i x = Some t.
Proof.
  unfold methodExists. destruct info as [i|]; [|discriminate].
  destruct (TypeOf i x) as [t|] eqn:E; [|discriminate].
  intros _. exists i, t. split; [reflexivity|exact E].
Qed.

(** Every report of a walk is for a selector whose base has a recorded type. *)
Lemma reports_typed (n : Node) (r : Report) :
  In r (reports pass n) ->
  exists X Sel i t,
    Range r = SelectorExpr X Sel /\ TypesInfo pass = Some i /\ TypeOf i X = Some t.
Proof.
  assert (flat : forall l,
             Forall (fun n => In r (reports pass n) ->
                              exists X Sel i t,
                                Range r = SelectorExpr X Sel
                                /\ TypesInfo pass = Some i /\ TypeOf i X = Some t) l ->
             In r (flat_map (reports pass) l) ->
             exists X Sel i t,
               Range r = SelectorExpr X Sel /\ TypesInfo pass = Some i /\ TypeOf i X = Some t).
  { induction 1 as [|a l Ha _ IH]; simpl; [intros []|].
    intro I. apply in_app_or in I as [I|I]; auto. }
  induction n using Node_forall_ind; cbn -[analyzeSelectorExpr]; try (intros []; fail); auto.
  - destruct (analyzeSelectorExpr pass n s) as [r'|] eqn:A; [|exact IHn].
    intros [<-|I]; [|exact (IHn I)].
    unfold analyzeSelectorExpr in A.
    destruct (isProtoMessage (TypesInfo pass) n) eqn:P; [|discriminate A].
    destruct s as [sel|]; [|discriminate A]. cbn [negb] in A.
    destruct (HasPrefix (Name sel) "Get"); [discriminate A|].
    destruct (methodExists (TypesInfo pass) n ("Get" ++ Name sel)) eqn:M; [|discriminate A].
    injection A as <-. destruct (methodExists_typed _ _ _ M) as [i [t [Ei Et]]].
    exists n, (Some sel), i, t. cbn. repeat split; assumption.
  - intro I. apply in_app_or in I as [I|I]; auto.
  - intro I. apply in_app_or in I as [I|I]; eauto.
  - destruct (token_eqb o AND); [intros []|exact IHn].
  - destruct (existsb isSelectorExpr l); [intros []|].
    intro I. apply in_app_or in I as [I|I]; eauto.
  - eauto.
Qed.

End Walk.

(** C1. No exempt position yields a finding: the walk of [Run] leaves the
    state of the run untouched on an assignment one of whose left-hand
    sides is a selector (the right-hand side included), on the increment or
    decrement of a selector and on the address of a selector, whatever the
    type information says about accessors; an assignment without a selector
    on the left is walked through, and a unary operator other than [&] hands
    its operand to the walk as if it stood alone. *)
Theorem exempt_positions_report_nothing `{Host} (pass : Pass) (mode : Mode)
    (st : RunState) :
  (forall Lhs Tok Rhs,
      Nodes nodeTypes (visit pass mode) (AssignStmt Lhs Tok Rhs) st
      = if existsb isSelectorExpr Lhs then st
        else NodesList nodeTypes (visit pass mode) Rhs
               (NodesList nodeTypes (visit pass mode) Lhs st))
  /\ (forall X Sel TokPos Tok,
         Nodes nodeTypes (visit pass mode) (IncDecStmt (SelectorExpr X Sel) TokPos Tok) st
         = st)
  /\ (forall X Sel OpPos,
         Nodes nodeTypes (visit pass mode) (UnaryExpr OpPos AND (SelectorExpr X Sel)) st
         = st)
  /\ (forall X OpPos Op,
         Nodes nodeTypes (visit pass mode) (UnaryExpr OpPos Op X) st
         = if token_eqb Op AND then st
           else Nodes nodeTypes (visit pass mode) X st).
Proof.
  split; [|split; [|split]]; intros.
  - cbn. destruct (existsb isSelectorExpr Lhs); reflexivity.
  - reflexivity.
  - reflexivity.
  - cbn. destruct (token_eqb Op AND); reflexivity.
Qed.

(** C10. An increment or decrement statement is left out of the walk with
    all that is below it, whatever its operand: the state of the run does
    not change, so a selector inside it, as in [m[t.Field]++], is never
    reported, although the same index expression standing alone is. *)
Theorem incdec_skips_whole_subtree :
  (forall (H : Host) (pass : Pass) (mode : Mode) X TokPos Tok (st : RunState),
      Nodes nodeTypes (visit pass mode) (IncDecStmt X TokPos Tok) st = st)
  /\ (forall mode,
         Run (Demo.pass1 (Demo.constInfo (Demo.message ["ProtoReflect"; "GetField"]))
                [mkFile [] [Demo.m_t_Field_inc]]) mode = ([], []))
  /\ snd (Run (Demo.pass1 (Demo.constInfo (Demo.message ["ProtoReflect"; "GetField"]))
                 [mkFile [] [ExprStmt Demo.m_t_Field]]) GolangciLintMode)
     = [ {| Range := Demo.t_Field;
            From := "t.Field";
            To := "t.GetField()";
            SelectorEdit := {| Edit_Range := mkIdent 5 "Field";
                               Edit_From := "Field";
                               Edit_To := "GetField()" |} |} ].
Proof.
  split; [|split].
  - reflexivity.
  - intro mode. reflexivity.
  - vm_compute. reflexivity.
Qed.

(** C9. Missing type information is a scope miss: when the type information
    is nil, or records no type for an expression, every capability query on
    that expression answers false, the expression is no message and no
    selector on it is reported; a run without type information ends with no
    diagnostic and no issue.  On partly typed input every report of a walk
    is for a selector whose base has a recorded type.  The run is a total
    function whose only outputs are the two lists, so there is no error to
    surface. *)
Theorem untyped_is_out_of_scope `{Host} (info : option Info) (x : Node) :
  info = None \/ (exists i, info = Some i /\ TypeOf i x = None) ->
  (forall name, methodExists info x name = false)
  /\ isProtoMessage info x = false
  /\ (forall pass Sel, TypesInfo pass = info -> analyzeSelectorExpr pass x Sel = None)
  /\ (forall pass mode, TypesInfo pass = None -> Run pass mode = ([], []))
  /\ (forall pass n r,
         In r (reports pass n) ->
         exists X Sel i t,
           Range r = SelectorExpr X Sel /\ TypesInfo pass = Some i /\ TypeOf i X = Some t).
Proof.
  intro U.
  assert (M : forall name, methodExists info x name = false)
    by (intro name; apply methodExists_untyped; exact U).
  assert (P : isProtoMessage info x = false)
    by (unfold isProtoMessage; rewrite !M; reflexivity).
  split; [exact M|]. split; [exact P|]. split; [|split].
  - intros pass Sel <-. apply analyzeSelectorExpr_not_message. exact P.
  - intros pass mode E. rewrite Run_reports.
    replace (flat_map _ _) with (@nil Report); [reflexivity|].
    induction (filter _ (Files pass)) as [|f fs IH]; simpl; [reflexivity|].
    rewrite <- IH, app_nil_r.
    induction (Decls f) as [|n ns IHn]; simpl; [reflexivity|].
    rewrite <- IHn, (reports_nil_info pass n E). reflexivity.
  - intros pass n r. apply reports_typed.
Qed.

Lemma untyped_is_out_of_scope_witness :
  (forall name, methodExists (Some (mkInfo (fun _ => None))) Demo.msg_Name name = false)
  /\ Run (Demo.pass1 None [mkFile [] [ExprStmt Demo.msg_Name]]) StandaloneMode = ([], []).
Proof.
  destruct (@untyped_is_out_of_scope Demo.host1 (Some (mkInfo (fun _ => None))) Demo.msg_Name)
    as [M [_ [_ [R _]]]].
  - right. exists (mkInfo (fun _ => None)). split; reflexivity.
  - split; [exact M|]. apply R. reflexivity.
Defined.

(** C4. A type that answers the older marker [ProtoMessage] and the marker
    [MarshalToSizedBuffer] of the generator without nil checks, but not
    the newer marker [ProtoReflect], is out of scope: no selector on it is
    reported, whether an accessor exists or not.  The exception is looked at
    only when [ProtoReflect] is absent: with it the type is in scope, also
    when it declares [MarshalToSizedBuffer]. *)
Theorem gogo_messages_out_of_scope `{Host} (pass : Pass) (x : Node) :
  (methodExists (TypesInfo pass) x "ProtoReflect" = false ->
   methodExists (TypesInfo pass) x "ProtoMessage" = true ->
   methodExists (TypesInfo pass) x "MarshalToSizedBuffer" = true ->
   isProtoMessage (TypesInfo pass) x = false
   /\ forall Sel, analyzeSelectorExpr pass x Sel = None)
  /\ (methodExists (TypesInfo pass) x "ProtoReflect" = true ->
      isProtoMessage (TypesInfo pass) x = true).
Proof.
  split.
  - intros V2 V1 Gogo.
    assert (P : isProtoMessage (TypesInfo pass) x = false)
      by (unfold isProtoMessage; rewrite V2, V1, Gogo; reflexivity).
    split; [exact P|]. intro Sel. apply analyzeSelectorExpr_not_message. exact P.
  - intro V2. unfold isProtoMessage. rewrite V2. reflexivity.
Qed.

Lemma gogo_messages_out_of_scope_witness :
  analyzeSelectorExpr
    (Demo.pass1 (Demo.constInfo
                   (Demo.message ["ProtoMessage"; "MarshalToSizedBuffer"; "GetName"])) [])
    (Demo.ident 1 "msg") (Some (mkIdent 5 "Name")) = None
  /\ isProtoMessage
       (Demo.constInfo (Demo.message ["ProtoReflect"; "MarshalToSizedBuffer"; "GetName"]))
       (Demo.ident 1 "msg") = true.
Proof.
  split.
  - apply (proj1 (@gogo_messages_out_of_scope Demo.host1
             (Demo.pass1 (Demo.constInfo
                (Demo.message ["ProtoMessage"; "MarshalToSizedBuffer"; "GetName"])) [])
             (Demo.ident 1 "msg"))); reflexivity.
  - apply (proj2 (@gogo_messages_out_of_scope Demo.host1
             (Demo.pass1 (Demo.constInfo
                (Demo.message ["ProtoReflect"; "MarshalToSizedBuffer"; "GetName"])) [])
             (Demo.ident 1 "msg"))). reflexivity.
Defined.



(** C7. A file with a comment group whose text begins with [Code generated]
    is dropped before the walk: as the header comment [c] of a file it makes
    [isGeneratedFile] answer true, and the run over the files of a pass is
    the run without that file, whatever code the file holds; a pass made of
    that file alone yields no diagnostic and no issue. *)
Theorem generated_files_excluded `{Host} (c : CommentGroup) (rest : list CommentGroup)
    (decls : list Node) :
  HasPrefix (Text c) "Code generated" = true ->
  isGeneratedFile (mkFile (c :: rest) decls) = true
  /\ (forall before after info fset mode,
         Run (mkPass (before ++ mkFile (c :: rest) decls :: after) info fset) mode
         = Run (mkPass (before ++ after) info fset) mode)
  /\ (forall info fset mode,
         Run (mkPass [mkFile (c :: rest) decls] info fset) mode = ([], [])).
Proof.
  intro G.
  assert (E : isGeneratedFile (mkFile (c :: rest) decls) = true)
    by (unfold isGeneratedFile; cbn; rewrite G; reflexivity).
  split; [exact E|]. split.
  - intros before after info fset mode. unfold Run. cbn [Files].
    rewrite !filter_app. cbn [filter]. rewrite E. reflexivity.
  - intros info fset mode. unfold Run. cbn [Files filter]. rewrite E. reflexivity.
Qed.

Lemma generated_files_excluded_witness :
  Run (Demo.pass1 (Demo.constInfo (Demo.message ["ProtoReflect"; "GetName"]))
         [mkFile [mkCommentGroup "Code generated by protoc-gen-go. DO NOT EDIT."]
            [ExprStmt Demo.msg_Name]]) GolangciLintMode
  = ([], []).
Proof.
  apply (@generated_files_excluded Demo.host1
           (mkCommentGroup "Code generated by protoc-gen-go. DO NOT EDIT.") []
           [ExprStmt Demo.msg_Name]).
  reflexivity.
Defined.

Section Idempotence.
Context `{Host}.
Variables (pass pass' : Pass).

(** The type checker gives a rewritten expression the capabilities of the
    expression it comes from: an accessor returns what the field holds. *)
Hypothesis retyped : forall e name,
  methodExists (TypesInfo pass') (applyFixes pass e) name
  = methodExists (TypesInfo pass) e name.






End Idempotence.



(** The demonstration file yields two reports for [a.B.C], and its
    rewritten form prints with both accessor calls in place. *)
Example demo_reports :
  map To (snd (Run (Demo.pass1 Demo.protoInfo [Demo.demoFile]) GolangciLintMode))
  = ["a.B.GetC()"; "a.GetB()"].
Proof. vm_compute. reflexivity. Qed.

Example demo_rewritten :
  map Demo.printNode
    (Decls (applyFixesFile (Demo.pass1 Demo.protoInfo [Demo.demoFile]) Demo.demoFile))
  = [Some "a.GetB().GetC()"; Some "msg.Name = a.B"; Some "m[t.Field]++"].
Proof. vm_compute. reflexivity. Qed.

(** The exempt positions on a message with accessors: nothing is reported
    for [msg.Name = a.B], [msg.Name++] and [&msg.Name], while [-msg.Name]
    is reported. *)
Example demo_exempt :
  Run (Demo.pass1 Demo.protoInfo
         [mkFile [] [AssignStmt [Demo.msg_Name] ASSIGN [Demo.a_B];
                     IncDecStmt Demo.msg_Name 9 INC;
                     ExprStmt (UnaryExpr 1 AND (Demo.sel (Demo.ident 2 "msg") "Name"))]])
      GolangciLintMode = ([], [])
  /\ map To (snd (Run (Demo.pass1 Demo.protoInfo
                         [mkFile [] [ExprStmt (UnaryExpr 1 SUB
                                                 (Demo.sel (Demo.ident 2 "msg") "Name"))]])
                    GolangciLintMode))
     = ["msg.GetName()"].
Proof. split; vm_compute; reflexivity. Qed.

End Rev1Props.

(** ** Properties of the second revision *)

Module Rev2Props.
Import Ast Types Rev2.

Lemma append_empty_r (s : string) : (s ++ EmptyString)%string = s.
Proof. induction s as [|c s IH]; simpl; [|rewrite IH]; reflexivity. Qed.

(** *** Ranges of well-formed trees are laminar *)

Lemma preorder_children (n : Node) :
  preorder n = n :: flat_map preorder (children n).
Proof.
  destruct n; simpl; rewrite ?app_nil_r; try reflexivity.
  rewrite flat_map_app. reflexivity.
Qed.

Lemma Node_children_ind (P : Node -> Prop) :
  (forall n, Forall P (children n) -> P n) -> forall n, P n.
Proof.
  intros Step n. induction n using Node_forall_ind; apply Step; simpl; auto.
  apply Forall_app. split; assumption.
Qed.

Lemma covers_refl (a : Z * Z) : covers a a = true.
Proof. unfold covers. rewrite !Z.leb_refl. reflexivity. Qed.

Lemma covers_trans (a b c : Z * Z) :
  covers a b = true -> covers b c = true -> covers a c = true.
Proof.
  unfold covers. intros Hab Hbc.
  apply andb_true_iff in Hab as [A1 A2]. apply andb_true_iff in Hbc as [B1 B2].
  apply Z.leb_le in A1, A2, B1, B2.
  apply andb_true_iff. split; apply Z.leb_le; lia.
Qed.

Lemma disjoint_sym (a b : Z * Z) : disjoint a b -> disjoint b a.
Proof. unfold disjoint. intros [D|D]; [right|left]; exact D. Qed.

Lemma laminar_sym (a b : Z * Z) : laminar a b -> laminar b a.
Proof.
  unfold laminar. intros [C|[C|D]]; [right; left|left|right; right]; auto using disjoint_sym.
Qed.

(** A range inside one of two disjoint ranges lies apart from any range
    inside the other. *)
Lemma disjoint_within (c c' a b : Z * Z) :
  disjoint c c' -> covers c a = true -> covers c' b = true -> disjoint a b.
Proof.
  unfold disjoint, covers. intros D Ha Hb.
  apply andb_true_iff in Ha as [A1 A2]. apply andb_true_iff in Hb as [B1 B2].
  apply Z.leb_le in A1, A2, B1, B2. lia.
Qed.

Lemma wellFormed_within (n : Node) :
  wellFormed n -> forall m, In m (preorder n) -> covers (range n) (range m) = true.
Proof.
  induction n as [n IH] using Node_children_ind. intros W m Hm.
  rewrite preorder_children in Hm. destruct Hm as [<-|Hm]; [apply covers_refl|].
  apply in_flat_map in Hm as [c [Hc Hm]].
  inversion W as [n' Wc Cc _ E]; subst n'.
  rewrite Forall_forall in IH, Wc, Cc.
  apply covers_trans with (b := range c); [apply Cc, Hc|].
  apply IH; [exact Hc|apply Wc, Hc|exact Hm].
Qed.

(** Trees that lie apart and are laminar inside make a laminar forest. *)
Lemma forest_laminar (l : list Node) :
  Forall wellFormed l ->
  Forall (fun c => forall a b, In a (preorder c) -> In b (preorder c) ->
                               laminar (range a) (range b)) l ->
  ForallOrdPairs (fun a b => disjoint (range a) (range b)) l ->
  forall a b, In a (flat_map preorder l) -> In b (flat_map preorder l) ->
              laminar (range a) (range b).
Proof.
  intros W L D. induction D as [|c l Dc D IH]; simpl; [intros a b []|].
  inversion W as [|c0 l0 Wc Wl]; subst. inversion L as [|c0 l0 Lc Ll]; subst.
  specialize (IH Wl Ll). rewrite Forall_forall in Dc, Wl.
  assert (apart : forall a b, In a (preorder c) -> In b (flat_map preorder l) ->
                              disjoint (range a) (range b)).
  { intros a b Ha Hb. apply in_flat_map in Hb as [c' [Hc' Hb]].
    apply (disjoint_within (range c) (range c')).
    - apply Dc, Hc'.
    - apply wellFormed_within; assumption.
    - apply wellFormed_within; [apply Wl, Hc'|exact Hb]. }
  intros a b Ha Hb.
  apply in_app_or in Ha as [Ha|Ha]; apply in_app_or in Hb as [Hb|Hb].
  - apply Lc; assumption.
  - right; right. apply apart; assumption.
  - right; right. apply disjoint_sym, apart; assumption.
  - apply IH; assumption.
Qed.

Lemma wellFormed_laminar (n : Node) :
  wellFormed n ->
  forall a b, In a (preorder n) -> In b (preorder n) -> laminar (range a) (range b).
Proof.
  induction n as [n IH] using Node_children_ind. intros W a b Ha Hb.
  pose proof (wellFormed_within n W) as In_n.
  rewrite preorder_children in Ha, Hb.
  destruct Ha as [<-|Ha].
  { left. apply In_n. rewrite preorder_children. exact Hb. }
  destruct Hb as [<-|Hb].
  { right; left. apply In_n. rewrite preorder_children. right. exact Ha. }
  inversion W as [n' Wc _ Dc E]; subst n'.
  apply (forest_laminar (children n)); try assumption.
  rewrite Forall_forall in IH, Wc. apply Forall_forall. intros c Hc.
  apply IH; [exact Hc|apply Wc, Hc].
Qed.

Lemma forest_candidates_laminar (l : list Node) (types : list Kind) :
  wellFormedForest l ->
  forall n m, In n (filter (listed types) (flat_map preorder l)) ->
              In m (filter (listed types) (flat_map preorder l)) ->
              laminar (range n) (range m).
Proof.
  intros [W D] n m Hn Hm. apply filter_In in Hn as [Hn _], Hm as [Hm _].
  apply (forest_laminar l); try assumption.
  rewrite Forall_forall in W. apply Forall_forall. intros c Hc.
  apply wellFormed_laminar, W, Hc.
Qed.

Lemma flat_map_Decls (files : list File) :
  flat_map (fun file => flat_map preorder (Decls file)) files
  = flat_map preorder (flat_map Decls files).
Proof.
  induction files as [|f fs IH]; simpl; [reflexivity|].
  rewrite IH, flat_map_app. reflexivity.
Qed.

Section Filter.
Context `{Host}.
Variable pass : Pass.

(** Marking positions leaves the registry of replaced ranges as it is. *)
Lemma alreadyReplaced_marked (marked : list Z) (f : PosFilter) :
  alreadyReplaced (fold_left AddPos marked f) = alreadyReplaced f.
Proof.
  revert f. induction marked as [|p marked IH]; intro f; simpl; [reflexivity|].
  rewrite IH. reflexivity.
Qed.

Lemma IsAlreadyReplaced_marked (marked : list Z) (f : PosFilter) (pos end_ : Z) :
  IsAlreadyReplaced (fold_left AddPos marked f) pos end_ = IsAlreadyReplaced f pos end_.
Proof. unfold IsAlreadyReplaced. rewrite alreadyReplaced_marked. reflexivity. Qed.

(** The diagnostics reported before have no part in what [analyse] decides. *)
Lemma analyse_reported (f : PosFilter) (reported : list Diagnostic) (n : Node) :
  analyse pass f reported n
  = (fst (fst (analyse pass f [] n)),
     reported ++ snd (fst (analyse pass f [] n)),
     snd (analyse pass f [] n)).
Proof.
  unfold analyse.
  destruct (IsFiltered f (Pos n)); [cbn; rewrite app_nil_r; reflexivity|].
  destruct (Process (TypesInfo pass) f n) as [marked [res|err]]; [|reflexivity].
  repeat match goal with
         | |- context [if ?b then _ else _] => destruct b
         end; cbn; rewrite app_nil_r; reflexivity.
Qed.

(** What one call of [analyse] does to the registry: nothing, or the range
    of the node it accepts is added at the end. *)
Lemma analyse_registry (f : PosFilter) (reported : list Diagnostic) (n : Node) :
  match snd (analyse pass f reported n) with
  | None =>
      alreadyReplaced (fst (fst (analyse pass f reported n))) = alreadyReplaced f
  | Some r =>
      node r = n
      /\ IsAlreadyReplaced f (Pos n) (End n) = false
      /\ alreadyReplaced (fst (fst (analyse pass f reported n)))
         = alreadyReplaced f ++ [range n]
  end.
Proof.
  unfold analyse.
  destruct (IsFiltered f (Pos n)); [reflexivity|].
  destruct (Process (TypesInfo pass) f n) as [marked [res|err]]; cbn;
    [|apply alreadyReplaced_marked].
  destruct (IsFiltered (fold_left AddPos marked f) (Pos n)); cbn;
    [apply alreadyReplaced_marked|].
  destruct (Skipped res); cbn; [apply alreadyReplaced_marked|].
  destruct (IsAlreadyReplaced (fold_left AddPos marked f) (Pos n) (End n)) eqn:R; cbn;
    [apply alreadyReplaced_marked|].
  rewrite IsAlreadyReplaced_marked in R. rewrite alreadyReplaced_marked.
  repeat split. exact R.
Qed.

Lemma analyse_keeps (f : PosFilter) (reported : list Diagnostic) (n : Node) (q : Z * Z) :
  In q (alreadyReplaced f) ->
  In q (alreadyReplaced (fst (fst (analyse pass f reported n)))).
Proof.
  intro Hq. pose proof (analyse_registry f reported n) as A.
  destruct (snd (analyse pass f reported n)) as [r|].
  - destruct A as [_ [_ ->]]. apply in_or_app. left. exact Hq.
  - rewrite A. exact Hq.
Qed.

Lemma accepted_cons (f : PosFilter) (n : Node) (rest : list Node) :
  accepted pass f (n :: rest)
  = match snd (analyse pass f [] n) with
    | None => accepted pass (fst (fst (analyse pass f [] n))) rest
    | Some r => r :: accepted pass (fst (fst (analyse pass f [] n))) rest
    end.
Proof.
  cbn [accepted]. destruct (analyse pass f [] n) as [[f' d] [r|]]; reflexivity.
Qed.

(** A range that passes the registry test is nested with no registered one. *)
Lemma not_replaced_unnested (f : PosFilter) (pos end_ : Z) (q : Z * Z) :
  IsAlreadyReplaced f pos end_ = false ->
  In q (alreadyReplaced f) ->
  covers q (pos, end_) = false /\ covers (pos, end_) q = false.
Proof.
  unfold IsAlreadyReplaced. intros E Hq. apply orb_false_iff.
  destruct (covers q (pos, end_) || covers (pos, end_) q) eqn:C; [|reflexivity].
  rewrite <- E. symmetry. apply existsb_exists. exists q. split; assumption.
Qed.

(** Every accepted report is for one of the nodes, and its range is nested
    with no range that was registered before the nodes were analysed. *)
Lemma accepted_unnested (nodes : list Node) :
  forall f,
    Forall (fun r => In (node r) nodes
                     /\ forall q, In q (alreadyReplaced f) ->
                                  covers q (range (node r)) = false
                                  /\ covers (range (node r)) q = false)
      (accepted pass f nodes).
Proof.
  induction nodes as [|n rest IH]; intro f; [constructor|].
  rewrite accepted_cons.
  pose proof (analyse_registry f [] n) as A.
  pose proof (fun q => analyse_keeps f [] n q) as K.
  specialize (IH (fst (fst (analyse pass f [] n)))).
  assert (T : Forall (fun r => In (node r) (n :: rest)
                     /\ forall q, In q (alreadyReplaced f) ->
                                  covers q (range (node r)) = false
                                  /\ covers (range (node r)) q = false)
                (accepted pass (fst (fst (analyse pass f [] n))) rest)).
  { eapply Forall_impl; [|exact IH]. cbn beta. intros r [Hin Hq]. split.
    - right. exact Hin.
    - intros q Q. apply Hq, K, Q. }
  destruct (snd (analyse pass f [] n)) as [r|]; [|exact T].
  destruct A as [N [R _]]. constructor; [|exact T]. split.
  - left. symmetry. exact N.
  - intros q Q. rewrite N. apply (not_replaced_unnested f _ _ q R Q).
Qed.

(** Over nodes whose ranges are laminar, the accepted ranges are disjoint. *)
Lemma accepted_disjoint (nodes : list Node) :
  (forall n m, In n nodes -> In m nodes -> laminar (range n) (range m)) ->
  forall f,
    ForallOrdPairs (fun r1 r2 => disjoint (range (node r1)) (range (node r2)))
      (accepted pass f nodes).
Proof.
  induction nodes as [|n rest IH]; intros L f; [constructor|].
  rewrite accepted_cons.
  assert (L' : forall a b, In a rest -> In b rest -> laminar (range a) (range b))
    by (intros a b Ha Hb; apply L; right; assumption).
  pose proof (analyse_registry f [] n) as A.
  pose proof (accepted_unnested rest (fst (fst (analyse pass f [] n)))) as U.
  specialize (IH L' (fst (fst (analyse pass f [] n)))).
  destruct (snd (analyse pass f [] n)) as [r|]; [|exact IH].
  destruct A as [N [_ Reg]]. constructor; [|exact IH].
  eapply Forall_impl; [|exact U]. cbn beta. intros r' [Hin Hq].
  rewrite N.
  destruct (Hq (range n)) as [C1 C2].
  { rewrite Reg. apply in_or_app. right. left. reflexivity. }
  destruct (L n (node r')) as [C|[C|D]].
  - left. reflexivity.
  - right. exact Hin.
  - rewrite C in C1. discriminate C1.
  - rewrite C in C2. discriminate C2.
  - exact D.
Qed.

Section Walk.
Variable mode : Mode.

Lemma visit_filter (n : Node) (st : RunState) :
  filter_ (visit pass mode n st) = fst (fst (analyse pass (filter_ st) [] n)).
Proof.
  unfold visit. rewrite analyse_reported.
  destruct (analyse pass (filter_ st) [] n) as [[f d] [r|]]; cbn; [|reflexivity].
  destruct (Z.eqb mode StandaloneMode); [reflexivity|].
  destruct (Z.eqb mode GolangciLintMode); reflexivity.
Qed.

(** No step of the walk takes a range out of the registry. *)
Lemma walk_keeps (nodes : list Node) :
  forall st q,
    In q (alreadyReplaced (filter_ st)) ->
    In q (alreadyReplaced (filter_ (fold_left (fun s n => visit pass mode n s) nodes st))).
Proof.
  induction nodes as [|n rest IH]; intros st q Hq; [exact Hq|].
  cbn [fold_left]. apply IH. rewrite visit_filter. apply analyse_keeps. exact Hq.
Qed.

(** The issues of the walk are those of the accepted reports, in order. *)
Lemma walk_issues (nodes : list Node) :
  forall st,
    issues_ (fold_left (fun s n => visit pass mode n s) nodes st)
    = issues_ st
      ++ (if Z.eqb mode GolangciLintMode
          then map (fun r => ToIssue r (Fset pass)) (accepted pass (filter_ st) nodes)
          else []).
Proof.
  induction nodes as [|n rest IH]; intro st.
  - cbn. destruct (Z.eqb mode GolangciLintMode); rewrite app_nil_r; reflexivity.
  - cbn [fold_left]. rewrite IH, visit_filter, accepted_cons.
    unfold visit. rewrite analyse_reported.
    destruct (analyse pass (filter_ st) [] n) as [[f d] [r|]]; cbn; [|reflexivity].
    destruct (Z.eqb_spec mode StandaloneMode) as [->|_]; [reflexivity|].
    destruct (Z.eqb mode GolangciLintMode); cbn.
    + rewrite <- app_assoc. reflexivity.
    + rewrite app_nil_r. reflexivity.
Qed.

End Walk.

Lemma Run_issues :
  issues_ (Run pass GolangciLintMode)
  = map (fun r => ToIssue r (Fset pass)) (accepted pass NewPosFilter (candidates pass)).
Proof. unfold Run, Preorder. rewrite walk_issues. reflexivity. Qed.

Lemma IsFiltered_marked (marked : list Z) (f : PosFilter) (pos : Z) :
  IsFiltered (fold_left AddPos marked f) pos
  = IsFiltered f pos || existsb (Z.eqb pos) marked.
Proof.
  revert f. induction marked as [|p marked IH]; intro f; cbn [fold_left existsb].
  - rewrite orb_false_r. reflexivity.
  - rewrite IH. unfold IsFiltered. cbn.
    destruct (Z.eqb pos p), (existsb (Z.eqb pos) (positions f)),
      (existsb (Z.eqb pos) marked); reflexivity.
Qed.

Lemma not_marked (marked : list Z) (pos : Z) :
  ~ In pos marked -> existsb (Z.eqb pos) marked = false.
Proof.
  intro N. destruct (existsb (Z.eqb pos) marked) eqn:E; [|reflexivity].
  apply existsb_exists in E as [p [Hp E]]. apply Z.eqb_eq in E. subst p.
  contradiction.
Qed.

(** When [Process] answers a result that is not skipped for a node that is
    neither filtered nor nested with a registered range, [analyse] accepts
    the node and registers its range. *)
Lemma analyse_accepts (f : PosFilter) (reported : list Diagnostic) (n : Node)
    (marked : list Z) (res : Result) :
  IsFiltered f (Pos n) = false ->
  Process (TypesInfo pass) f n = (marked, inl res) ->
  ~ In (Pos n) marked ->
  Skipped res = false ->
  IsAlreadyReplaced f (Pos n) (End n) = false ->
  analyse pass f reported n
  = (AddAlreadyReplaced (fold_left AddPos marked f) (Pos n) (End n), reported,
     Some {| node := n; result := res |}).
Proof.
  intros F P M S R. unfold analyse.
  rewrite F, P, IsFiltered_marked, F, (not_marked _ _ M), S, IsAlreadyReplaced_marked, R.
  reflexivity.
Qed.

(** A node inside a registered range is never accepted. *)
Lemma analyse_nested (f : PosFilter) (reported : list Diagnostic) (n : Node) (q : Z * Z) :
  In q (alreadyReplaced f) ->
  covers q (range n) = true ->
  snd (analyse pass f reported n) = None.
Proof.
  intros Hq C. unfold analyse.
  destruct (IsFiltered f (Pos n)); [reflexivity|].
  destruct (Process (TypesInfo pass) f n) as [marked [res|err]]; [|reflexivity].
  destruct (IsFiltered (fold_left AddPos marked f) (Pos n)); [reflexivity|].
  destruct (Skipped res); [reflexivity|].
  rewrite IsAlreadyReplaced_marked.
  replace (IsAlreadyReplaced f (Pos n) (End n)) with true; [reflexivity|].
  symmetry. apply existsb_exists. exists q. split; [exact Hq|].
  unfold range in C. rewrite C. reflexivity.
Qed.

End Filter.

(** C2. Accepted findings do not overlap.  Over candidate nodes whose ranges
    are laminar (nested or disjoint) the ranges of any two accepted reports
    are disjoint; the candidates of a run over well-formed files are such
    nodes, so the accepted reports of a run are pairwise disjoint, and the
    issues of the run are those of these reports; no step of the walk removes a range
    from the registry of replaced ranges; and for the nested access [a.B.C],
    when [Process] answers a result that is not skipped for the whole
    access, the walk over its nodes accepts exactly one report, the one for
    the whole access, which pre-order visits before [a.B]. *)
Theorem no_overlapping_findings `{Host} (pass : Pass) :
  (forall f nodes,
      (forall n m, In n nodes -> In m nodes -> laminar (range n) (range m)) ->
      ForallOrdPairs (fun r1 r2 => disjoint (range (node r1)) (range (node r2)))
        (accepted pass f nodes))
  /\ (wellFormedForest
        (flat_map Decls (filter (fun f => negb (isGeneratedFile f)) (Files pass))) ->
      ForallOrdPairs (fun r1 r2 => disjoint (range (node r1)) (range (node r2)))
        (accepted pass NewPosFilter (candidates pass)))
  /\ issues_ (Run pass GolangciLintMode)
     = map (fun r => ToIssue r (Fset pass)) (accepted pass NewPosFilter (candidates pass))
  /\ (forall mode nodes st q,
         In q (alreadyReplaced (filter_ st)) ->
         In q (alreadyReplaced
                 (filter_ (fold_left (fun s n => visit pass mode n s) nodes st))))
  /\ (forall a B C marked res,
         Ident_End B <= Ident_End C ->
         Process (TypesInfo pass) NewPosFilter
           (SelectorExpr (SelectorExpr (IdentExpr a) (Some B)) (Some C))
         = (marked, inl res) ->
         Skipped res = false ->
         ~ In (NamePos a) marked ->
         filter (listed nodeTypes)
           (preorder (SelectorExpr (SelectorExpr (IdentExpr a) (Some B)) (Some C)))
         = [SelectorExpr (SelectorExpr (IdentExpr a) (Some B)) (Some C);
            SelectorExpr (IdentExpr a) (Some B)]
         /\ accepted pass NewPosFilter
              (filter (listed nodeTypes)
                 (preorder (SelectorExpr (SelectorExpr (IdentExpr a) (Some B)) (Some C))))
            = [ {| node := SelectorExpr (SelectorExpr (IdentExpr a) (Some B)) (Some C);
                   result := res |} ]).
Proof.
  split; [|split; [|split; [|split]]].
  - intros f nodes L. apply accepted_disjoint. exact L.
  - intro W. apply accepted_disjoint. unfold candidates.
    rewrite flat_map_Decls. apply forest_candidates_laminar. exact W.
  - apply Run_issues.
  - intros mode nodes st q. apply walk_keeps.
  - intros a B C marked res Wf P S M. split; [reflexivity|].
    cbn [preorder filter listed kindOf nodeTypes existsb Kind_eqb orb app].
    rewrite accepted_cons.
    rewrite (analyse_accepts pass NewPosFilter [] _ marked res); try assumption;
      try reflexivity.
    cbn [snd fst]. f_equal.
    rewrite accepted_cons.
    rewrite (analyse_nested pass _ [] _ (NamePos a, Ident_End C)).
    + reflexivity.
    + cbn. rewrite alreadyReplaced_marked. left. reflexivity.
    + unfold covers, range. cbn.
      apply andb_true_iff. split; apply Z.leb_le; [lia|exact Wf].
Qed.

Lemma no_overlapping_findings_witness :
  ForallOrdPairs (fun r1 r2 => disjoint (range (node r1)) (range (node r2)))
    (accepted (Demo.pass2 Demo.protoInfo [Demo.demoFile]) NewPosFilter
       [Demo.a_B_C; Demo.a_B])
  /\ ForallOrdPairs (fun r1 r2 => disjoint (range (node r1)) (range (node r2)))
       (accepted (Demo.pass2 Demo.protoInfo [mkFile [] [ExprStmt Demo.a_B_C]]) NewPosFilter
          (candidates (Demo.pass2 Demo.protoInfo [mkFile [] [ExprStmt Demo.a_B_C]])))
  /\ In (1, 6)
       (alreadyReplaced
          (filter_
             (fold_left
                (fun s n =>
                   visit (Demo.pass2 Demo.protoInfo [mkFile [] [ExprStmt Demo.a_B_C]])
                     StandaloneMode n s)
                [Demo.a_B]
                {| filter_ := AddAlreadyReplaced NewPosFilter 1 6;
                   reported_ := [];
                   issues_ := [] |})))
  /\ accepted (Demo.pass2 Demo.protoInfo [mkFile [] [ExprStmt Demo.a_B_C]]) NewPosFilter
       (filter (listed nodeTypes) (preorder Demo.a_B_C))
     = [ {| node := Demo.a_B_C;
            result := {| From := "a.B.C"; To := "a.B.GetC()" |} |} ].
Proof.
  pose proof (@no_overlapping_findings Demo.host2
                (Demo.pass2 Demo.protoInfo [Demo.demoFile])) as [D _].
  pose proof (@no_overlapping_findings Demo.host2
                (Demo.pass2 Demo.protoInfo [mkFile [] [ExprStmt Demo.a_B_C]]))
    as [_ [W [_ [K N]]]].
  split; [|split; [|split]].
  - apply D.
    intros n m [<-|[<-|[]]] [<-|[<-|[]]];
      solve [left; reflexivity | right; left; reflexivity].
  - apply W. split.
    + repeat first [ apply Forall_nil
                   | apply Forall_cons
                   | apply FOP_nil
                   | apply FOP_cons
                   | apply wellFormed_node; cbn [children Demo.a_B_C Demo.a_B Demo.sel Demo.ident]
                   | reflexivity ].
    + apply FOP_cons; [apply Forall_nil | apply FOP_nil].
  - apply K. left. reflexivity.
  - apply (N (mkIdent 1 "a") (mkIdent 3 "B") (mkIdent 5 "C") []).
    + vm_compute. discriminate.
    + reflexivity.
    + reflexivity.
    + intros [].
Defined.

(** C6. Both adapters build their message by the same call,
    [Sprintf msgFormat] on [From] and [To] of the report, so the diagnostic
    and the issue carry the same text: the words of [msgFormat] with the
    quoted [From] and the quoted [To] in place of the two [%q]; the
    suggested fix carries that text too. *)
Theorem adapters_agree `{Host} (r : Report) (fset : FileSet) :
  Diag_Message (ToDiagReport r) = Issue_Message (ToIssue r fset)
  /\ Issue_Message (ToIssue r fset) = Sprintf msgFormat [From (result r); To (result r)]
  /\ Sprintf msgFormat [From (result r); To (result r)]
     = ("avoid direct access to proto field " ++ Quote (From (result r))
        ++ " use " ++ Quote (To (result r)))%string
  /\ Forall (fun sf => Fix_Message sf = Issue_Message (ToIssue r fset))
       (Diag_SuggestedFixes (ToDiagReport r)).
Proof.
  split; [reflexivity|]. split; [reflexivity|]. split.
  - cbn. rewrite append_empty_r. reflexivity.
  - cbn -[Sprintf]. constructor; [reflexivity|constructor].
Qed.



(** The message for [msg.Name], with the quoting of [Demo.asciiQuote]. *)
Example demo_message :
  Issue_Message
    (@ToIssue Demo.host2
       {| node := Demo.msg_Name;
          result := {| From := "msg.Name"; To := "msg.GetName()" |} |} tt)
  = ("avoid direct access to proto field " ++ Demo.asciiQuote "msg.Name"
     ++ " use " ++ Demo.asciiQuote "msg.GetName()")%string.
Proof. vm_compute. reflexivity. Qed.

End Rev2Props.

(** ** Further properties of the first revision *)

Module Rev1Extra.
Import Ast Types Rev1 Rev1Props.

(** [strings.HasPrefix] answers true exactly for the strings that continue
    the prefix. *)
Lemma HasPrefix_spec (s prefix : string) :
  HasPrefix s prefix = true <-> exists rest, s = (prefix ++ rest)%string.
Proof.
  unfold HasPrefix. revert s.
  induction prefix as [|c prefix IH]; intro s.
  - split; [intros _; exists s; reflexivity|]. intros _. destruct s; reflexivity.
  - destruct s as [|d s]; cbn.
    + split; [discriminate|]. intros [rest E]. discriminate E.
    + destruct (ascii_dec c d) as [->|N].
      * rewrite IH. split; intros [rest E]; exists rest.
        -- rewrite E. reflexivity.
        -- injection E as E. exact E.
      * split; [discriminate|]. intros [rest E]. injection E as E _.
        contradiction N. symmetry. exact E.
Qed.

Section Selector.
Context `{Host}.
Variable pass : Pass.

(** What a report says when there is one. *)
Lemma analyzeSelectorExpr_Some (X : Node) (Sel : option Ident) (r : Report) :
  analyzeSelectorExpr pass X Sel = Some r ->
  exists sel,
    Sel = Some sel
    /\ isProtoMessage (TypesInfo pass) X = true
    /\ HasPrefix (Name sel) "Get" = false
    /\ methodExists (TypesInfo pass) X ("Get" ++ Name sel) = true
    /\ r = {| Range := SelectorExpr X Sel;
              From := formatNode (Fset pass) (SelectorExpr X Sel);
              To := (formatNode (Fset pass) X ++ ".Get" ++ Name sel ++ "()")%string;
              SelectorEdit := {| Edit_Range := sel;
                                 Edit_From := Name sel;
                                 Edit_To := ("Get" ++ Name sel ++ "()")%string |} |}.
Proof.
  unfold analyzeSelectorExpr.
  destruct (isProtoMessage (TypesInfo pass) X) eqn:P; [|discriminate].
  destruct Sel as [sel|]; [|discriminate]. cbn [negb].
  destruct (HasPrefix (Name sel) "Get") eqn:G; [discriminate|].
  destruct (methodExists (TypesInfo pass) X ("Get" ++ Name sel)) eqn:M; [|discriminate].
  intro E. injection E as <-. exists sel. repeat split; assumption.
Qed.

End Selector.

(** X1. A selector is reported exactly when it has a field identifier whose
    name does not begin with [Get], its base is a message in scope and the
    type of the base declares the accessor [Get] followed by the field
    name. *)
Theorem reported_exactly_when `{Host} (pass : Pass) (X : Node) (Sel : option Ident) :
  (exists r, analyzeSelectorExpr pass X Sel = Some r)
  <-> exists sel,
        Sel = Some sel
        /\ (forall rest, Name sel <> ("Get" ++ rest)%string)
        /\ isProtoMessage (TypesInfo pass) X = true
        /\ methodExists (TypesInfo pass) X ("Get" ++ Name sel) = true.
Proof.
  split.
  - intros [r A]. apply analyzeSelectorExpr_Some in A as [sel [E [P [G [M _]]]]].
    exists sel. repeat split; try assumption.
    intros rest N.
    assert (T : HasPrefix (Name sel) "Get" = true)
      by (apply HasPrefix_spec; exists rest; exact N).
    rewrite G in T. discriminate T.
  - intros [sel [-> [G [P M]]]]. unfold analyzeSelectorExpr. rewrite P. cbn [negb].
    destruct (HasPrefix (Name sel) "Get") eqn:E.
    + apply HasPrefix_spec in E as [rest E]. contradiction (G rest E).
    + rewrite M. eexists. reflexivity.
Qed.

Lemma reported_exactly_when_witness :
  exists r,
    analyzeSelectorExpr (Demo.pass1 Demo.protoInfo []) (Demo.ident 1 "msg")
      (Some (mkIdent 5 "Name")) = Some r.
Proof.
  apply (proj2 (@reported_exactly_when Demo.host1 (Demo.pass1 Demo.protoInfo [])
                  (Demo.ident 1 "msg") (Some (mkIdent 5 "Name")))).
  exists (mkIdent 5 "Name"). split; [reflexivity|]. split; [|split; reflexivity].
  intros rest E. discriminate E.
Defined.

(** X2. [methodExists] looks through one pointer and no more: for a pointer
    to a named type, and for a named type that is no pointer underneath, it
    answers whether the method is among the declared ones; for a pointer to
    a pointer it answers false whatever the pointee declares, so no selector
    on such an expression is reported. *)
Theorem one_pointer_level `{Host} (i : Info) (x : Node) (name : string) :
  (forall n ms u,
      TypeOf i x = Some (Pointer (Named n ms u)) ->
      (methodExists (Some i) x name = true <-> In name ms))
  /\ (forall n ms u,
         TypeOf i x = Some (Named n ms u) ->
         (forall e, u <> Pointer e) ->
         (methodExists (Some i) x name = true <-> In name ms))
  /\ (forall t,
         TypeOf i x = Some (Pointer (Pointer t)) ->
         methodExists (Some i) x name = false
         /\ forall pass Sel,
              TypesInfo pass = Some i -> analyzeSelectorExpr pass x Sel = None).
Proof.
  assert (In_eqb : forall ms, existsb (String.eqb name) ms = true <-> In name ms).
  { intro ms. rewrite existsb_exists. split.
    - intros [m [I E]]. apply String.eqb_eq in E. subst m. exact I.
    - intro I. exists name. split; [exact I|apply String.eqb_refl]. }
  split; [|split].
  - intros n ms u T. unfold methodExists. rewrite T. cbn. apply In_eqb.
  - intros n ms u T U. unfold methodExists. rewrite T. cbn.
    destruct u; try apply In_eqb. contradiction (U u eq_refl).
  - intros t T.
    assert (M : forall nm, methodExists (Some i) x nm = false)
      by (intro nm; unfold methodExists; rewrite T; reflexivity).
    split; [apply M|]. intros pass Sel E.
    apply analyzeSelectorExpr_not_message. rewrite E.
    unfold isProtoMessage. rewrite !M. reflexivity.
Qed.

Lemma one_pointer_level_witness :
  methodExists (Demo.constInfo (Pointer (Named "M" ["ProtoReflect"; "GetName"] (Struct []))))
    (Demo.ident 1 "msg") "GetName" = true
  /\ methodExists (Demo.constInfo (Named "M" ["ProtoReflect"; "GetName"] (Struct [])))
       (Demo.ident 1 "msg") "GetName" = true
  /\ analyzeSelectorExpr
       (Demo.pass1 (Demo.constInfo
                      (Pointer (Pointer (Named "M" ["ProtoReflect"; "GetName"] (Struct [])))))
          [])
       (Demo.ident 1 "msg") (Some (mkIdent 5 "Name")) = None.
Proof.
  split; [|split].
  - apply (proj1 (@one_pointer_level Demo.host1
                    (mkInfo (fun _ => Some (Pointer
                       (Named "M" ["ProtoReflect"; "GetName"] (Struct [])))))
                    (Demo.ident 1 "msg") "GetName")
             "M" ["ProtoReflect"; "GetName"] (Struct []) eq_refl).
    right. left. reflexivity.
  - apply (proj1 (proj2 (@one_pointer_level Demo.host1
                           (mkInfo (fun _ => Some
                              (Named "M" ["ProtoReflect"; "GetName"] (Struct []))))
                           (Demo.ident 1 "msg") "GetName"))
             "M" ["ProtoReflect"; "GetName"] (Struct []) eq_refl).
    + intros e E. discriminate E.
    + right. left. reflexivity.
  - apply (proj2 (proj2 (@one_pointer_level Demo.host1
                           (mkInfo (fun _ => Some (Pointer (Pointer
                              (Named "M" ["ProtoReflect"; "GetName"] (Struct []))))))
                           (Demo.ident 1 "msg") "GetName"))
             (Named "M" ["ProtoReflect"; "GetName"] (Struct [])) eq_refl).
    reflexivity.
Defined.

Section Runs.
Context `{Host}.

Lemma emit_fold (pass : Pass) (mode : Mode) (rs : list Report) :
  forall st,
    fold_left (emit pass mode) rs st
    = if Z.eqb mode StandaloneMode then (fst st ++ map ToAnalysisDiagnostic rs, snd st)
      else if Z.eqb mode GolangciLintMode
           then (fst st, snd st ++ map (fun r => ToIssue r (Fset pass)) rs)
           else st.
Proof.
  induction rs as [|r rs IH]; intros [ds is_]; cbn [fold_left map fst snd].
  - rewrite !app_nil_r. destruct (Z.eqb mode StandaloneMode), (Z.eqb mode GolangciLintMode);
      reflexivity.
  - rewrite IH. unfold emit. cbn [fst snd].
    destruct (Z.eqb mode StandaloneMode); cbn [fst snd].
    + rewrite <- app_assoc. reflexivity.
    + destruct (Z.eqb mode GolangciLintMode); cbn [fst snd]; [|reflexivity].
      rewrite <- app_assoc. reflexivity.
Qed.

Lemma Run_runReports (pass : Pass) (mode : Mode) :
  Run pass mode = fold_left (emit pass mode) (runReports pass) ([], []).
Proof. apply Run_reports. Qed.

Lemma flat_map_Forall_ext {A B : Type} (f g : A -> list B) (l : list A) :
  Forall (fun a => f a = g a) l -> flat_map f l = flat_map g l.
Proof. induction 1 as [|a l E _ IH]; simpl; [reflexivity|]. rewrite E, IH. reflexivity. Qed.

(** The reports of a tree do not depend on the files of the pass. *)
Lemma reports_Files (fs fs' : list File) (info : option Info) (fset : FileSet) (n : Node) :
  reports (mkPass fs info fset) n = reports (mkPass fs' info fset) n.
Proof.
  induction n using Node_forall_ind; cbn -[analyzeSelectorExpr]; auto.
  - replace (analyzeSelectorExpr (mkPass fs' info fset) n s)
      with (analyzeSelectorExpr (mkPass fs info fset) n s) by reflexivity.
    rewrite IHn. reflexivity.
  - rewrite IHn1, IHn2. reflexivity.
  - rewrite IHn. f_equal. apply flat_map_Forall_ext. assumption.
  - destruct (token_eqb o AND); auto.
  - destruct (existsb isSelectorExpr l); [reflexivity|].
    f_equal; apply flat_map_Forall_ext; assumption.
  - apply flat_map_Forall_ext. assumption.
Qed.

Lemma runReports_app (fs1 fs2 : list File) (info : option Info) (fset : FileSet) :
  runReports (mkPass (fs1 ++ fs2) info fset)
  = runReports (mkPass fs1 info fset) ++ runReports (mkPass fs2 info fset).
Proof.
  unfold runReports. cbn [Files]. rewrite filter_app, flat_map_app.
  f_equal; apply flat_map_ext; intro f; apply flat_map_ext; intro n; apply reports_Files.
Qed.

(** Every report of a tree is what [analyzeSelectorExpr] says about a
    selector that is a node of the tree. *)
Lemma reports_in (pass : Pass) (n : Node) (r : Report) :
  In r (reports pass n) ->
  exists X Sel,
    In (SelectorExpr X Sel) (preorder n) /\ analyzeSelectorExpr pass X Sel = Some r.
Proof.
  assert (flat : forall l,
             Forall (fun n => In r (reports pass n) ->
                              exists X Sel, In (SelectorExpr X Sel) (preorder n)
                                            /\ analyzeSelectorExpr pass X Sel = Some r) l ->
             In r (flat_map (reports pass) l) ->
             exists X Sel, In (SelectorExpr X Sel) (flat_map preorder l)
                           /\ analyzeSelectorExpr pass X Sel = Some r).
  { induction 1 as [|a l Ha _ IH]; simpl; [intros []|].
    intro I. apply in_app_or in I as [I|I].
    - destruct (Ha I) as [X [Sel [P A]]]. exists X, Sel. split; [|exact A].
      apply in_or_app. left. exact P.
    - destruct (IH I) as [X [Sel [P A]]]. exists X, Sel. split; [|exact A].
      apply in_or_app. right. exact P. }
  assert (under : forall (m : Node) (l : list Node),
             (exists X Sel, In (SelectorExpr X Sel) l
                            /\ analyzeSelectorExpr pass X Sel = Some r) ->
             exists X Sel, In (SelectorExpr X Sel) (m :: l)
                           /\ analyzeSelectorExpr pass X Sel = Some r).
  { intros m l [X [Sel [P A]]]. exists X, Sel. split; [right; exact P|exact A]. }
  induction n using Node_forall_ind; cbn -[analyzeSelectorExpr];
    try (intros []; fail).
  - intro I. apply under, IHn, I.
  - destruct (analyzeSelectorExpr pass n s) as [r'|] eqn:A.
    + intros [<-|I]; [|apply under, IHn, I].
      exists n, s. split; [left; reflexivity|exact A].
    + intro I. apply under, IHn, I.
  - intro I. apply under. apply in_app_or in I as [I|I].
    + destruct (IHn1 I) as [X [Sel [P A]]]. exists X, Sel. split; [|exact A].
      apply in_or_app. left. exact P.
    + destruct (IHn2 I) as [X [Sel [P A]]]. exists X, Sel. split; [|exact A].
      apply in_or_app. right. exact P.
  - intro I. apply under. apply in_app_or in I as [I|I].
    + destruct (IHn I) as [X [Sel [P A]]]. exists X, Sel. split; [|exact A].
      apply in_or_app. left. exact P.
    + destruct (flat _ H0 I) as [X [Sel [P A]]]. exists X, Sel. split; [|exact A].
      apply in_or_app. right. exact P.
  - destruct (token_eqb o AND); [intros []|]. intro I. apply under, IHn, I.
  - destruct (existsb isSelectorExpr l); [intros []|].
    intro I. apply under. apply in_app_or in I as [I|I].
    + destruct (flat _ H0 I) as [X [Sel [P A]]]. exists X, Sel. split; [|exact A].
      apply in_or_app. left. exact P.
    + destruct (flat _ H1 I) as [X [Sel [P A]]]. exists X, Sel. split; [|exact A].
      apply in_or_app. right. exact P.
  - intro I. apply under, IHn, I.
  - intro I. apply under, (flat _ H0 I).
Qed.

End Runs.

(** X3. What a run gives in each mode: in standalone mode one diagnostic
    per report and no issue, in golangci-lint mode one issue per report and
    no diagnostic, both in the order of the walk; for any other mode the
    reports are dropped.  The analyzer of [NewAnalyzer] runs in standalone
    mode and returns neither a result nor an error. *)
Theorem run_by_mode `{Host} (pass : Pass) :
  Run pass StandaloneMode = (map ToAnalysisDiagnostic (runReports pass), [])
  /\ Run pass GolangciLintMode
     = ([], map (fun r => ToIssue r (Fset pass)) (runReports pass))
  /\ (forall mode,
         mode <> StandaloneMode -> mode <> GolangciLintMode -> Run pass mode = ([], []))
  /\ Analyzer_Run NewAnalyzer pass
     = (map ToAnalysisDiagnostic (runReports pass), (None, None)).
Proof.
  split; [|split; [|split]].
  - rewrite Run_runReports, emit_fold. reflexivity.
  - rewrite Run_runReports, emit_fold. reflexivity.
  - intros mode N0 N1. rewrite Run_runReports, emit_fold.
    apply Z.eqb_neq in N0, N1. rewrite N0, N1. reflexivity.
  - cbn. rewrite Run_runReports, emit_fold. reflexivity.
Qed.

Lemma run_by_mode_witness :
  Run (Demo.pass1 Demo.protoInfo [Demo.demoFile]) 7 = ([], []).
Proof.
  apply (@run_by_mode Demo.host1 (Demo.pass1 Demo.protoInfo [Demo.demoFile]));
    discriminate.
Defined.

(** X4. Files are analysed independently: the run over two lists of files
    put together gives the diagnostics and the issues of the first list
    followed by those of the second. *)
Theorem run_files_app `{Host} (fs1 fs2 : list File) (info : option Info)
    (fset : FileSet) (mode : Mode) :
  Run (mkPass (fs1 ++ fs2) info fset) mode
  = (fst (Run (mkPass fs1 info fset) mode) ++ fst (Run (mkPass fs2 info fset) mode),
     snd (Run (mkPass fs1 info fset) mode) ++ snd (Run (mkPass fs2 info fset) mode)).
Proof.
  rewrite !Run_runReports, runReports_app, !emit_fold. cbn [Fset fst snd app].
  destruct (Z.eqb mode StandaloneMode); cbn [fst snd app].
  - rewrite map_app. reflexivity.
  - destruct (Z.eqb mode GolangciLintMode); cbn [fst snd app]; [|reflexivity].
    rewrite map_app. reflexivity.
Qed.

(** X5. Nothing is reported out of thin air: every issue of a run, and every
    diagnostic of a standalone run, comes from a report that
    [analyzeSelectorExpr] gives for a selector that is a node of a
    declaration of a file of the pass that is not generated. *)
Theorem run_outputs_have_a_selector `{Host} (pass : Pass) :
  let from_selector (r : Report) :=
    exists f n X Sel,
      In f (Files pass) /\ isGeneratedFile f = false /\ In n (Decls f)
      /\ In (SelectorExpr X Sel) (preorder n)
      /\ analyzeSelectorExpr pass X Sel = Some r in
  (forall issue,
      In issue (snd (Run pass GolangciLintMode)) ->
      exists r, issue = ToIssue r (Fset pass) /\ from_selector r)
  /\ (forall d,
         In d (fst (Run pass StandaloneMode)) ->
         exists r, d = ToAnalysisDiagnostic r /\ from_selector r).
Proof.
  intro from_selector.
  assert (S : forall r, In r (runReports pass) -> from_selector r).
  { intros r I. unfold runReports in I.
    apply in_flat_map in I as [f [Hf I]]. apply filter_In in Hf as [Hf G].
    apply in_flat_map in I as [n [Hn I]].
    apply reports_in in I as [X [Sel [P A]]].
    exists f, n, X, Sel. repeat split; try assumption.
    destruct (isGeneratedFile f); [discriminate G|reflexivity]. }
  split.
  - intros issue I. rewrite Run_runReports, emit_fold in I. cbn in I.
    apply in_map_iff in I as [r [E I]]. exists r. split; [symmetry; exact E|apply S, I].
  - intros d I. rewrite Run_runReports, emit_fold in I. cbn in I.
    apply in_map_iff in I as [r [E I]]. exists r. split; [symmetry; exact E|apply S, I].
Qed.

Lemma run_outputs_have_a_selector_witness :
  exists r,
    In r (snd (Run (Demo.pass1 Demo.protoInfo [Demo.demoFile]) GolangciLintMode))
    /\ exists X Sel, analyzeSelectorExpr (Demo.pass1 Demo.protoInfo [Demo.demoFile]) X Sel
                     = Some r.
Proof.
  destruct (proj1 (@run_outputs_have_a_selector Demo.host1
                     (Demo.pass1 Demo.protoInfo [Demo.demoFile]))
              {| Range := Demo.a_B;
                 From := "a.B";
                 To := "a.GetB()";
                 SelectorEdit := {| Edit_Range := mkIdent 3 "B";
                                    Edit_From := "B";
                                    Edit_To := "GetB()" |} |})
    as [r [E [f [n [X [Sel [_ [_ [_ [_ A]]]]]]]]]].
  - vm_compute. right. left. reflexivity.
  - exists r. split.
    + cbn in E. rewrite <- E. vm_compute. right. left. reflexivity.
    + exists X, Sel. exact A.
Defined.

(** X6. The first revision does not deduplicate nested accesses: when a
    selector and the selector that is its base are both reported, the walk
    emits the report of the outer one, then the report of the inner one, and
    goes on below; the two reported ranges begin at the same position. *)
Theorem nested_selectors_both_reported `{Host} (pass : Pass) (mode : Mode)
    (x : Node) (B C : option Ident) (r1 r2 : Report) (st : RunState) :
  analyzeSelectorExpr pass (SelectorExpr x B) C = Some r1 ->
  analyzeSelectorExpr pass x B = Some r2 ->
  Nodes nodeTypes (visit pass mode) (SelectorExpr (SelectorExpr x B) C) st
  = Nodes nodeTypes (visit pass mode) x (emit pass mode (emit pass mode st r1) r2)
  /\ Range r1 = SelectorExpr (SelectorExpr x B) C
  /\ Range r2 = SelectorExpr x B
  /\ Pos (Range r1) = Pos (Range r2).
Proof.
  intros A1 A2.
  assert (R1 : Range r1 = SelectorExpr (SelectorExpr x B) C).
  { apply analyzeSelectorExpr_Some in A1 as [sel [_ [_ [_ [_ ->]]]]]. reflexivity. }
  assert (R2 : Range r2 = SelectorExpr x B).
  { apply analyzeSelectorExpr_Some in A2 as [sel [_ [_ [_ [_ ->]]]]]. reflexivity. }
  split; [|split; [exact R1|split; [exact R2|rewrite R1, R2; reflexivity]]].
  rewrite !Nodes_emit. cbn -[analyzeSelectorExpr emit]. rewrite A1, A2. reflexivity.
Qed.

Lemma nested_selectors_both_reported_witness :
  map To (snd (Nodes nodeTypes
                 (visit (Demo.pass1 Demo.protoInfo []) GolangciLintMode)
                 Demo.a_B_C ([], [])))
  = ["a.B.GetC()"; "a.GetB()"].
Proof.
  change Demo.a_B_C
    with (SelectorExpr (SelectorExpr (Demo.ident 1 "a") (Some (mkIdent 3 "B")))
            (Some (mkIdent 5 "C"))).
  rewrite (proj1 (@nested_selectors_both_reported Demo.host1
                    (Demo.pass1 Demo.protoInfo []) GolangciLintMode
                    (Demo.ident 1 "a") (Some (mkIdent 3 "B")) (Some (mkIdent 5 "C"))
                    _ _ ([], []) eq_refl eq_refl)).
  vm_compute. reflexivity.
Defined.

(** X7. The narrow edit of a report agrees with its texts: it covers the
    field identifier, which ends where the reported range ends, replaces the
    field name by [Get], the name and [()], and, with a printer that writes
    a selector as its base, a dot and the field name, putting the new text in
    place of the old one in [From] gives [To]. *)
Theorem selector_edit_agrees `{Host} (pass : Pass) (X : Node) (Sel : option Ident)
    (r : Report) :
  analyzeSelectorExpr pass X Sel = Some r ->
  Sel = Some (Edit_Range (SelectorEdit r))
  /\ Edit_From (SelectorEdit r) = Name (Edit_Range (SelectorEdit r))
  /\ Edit_To (SelectorEdit r) = ("Get" ++ Edit_From (SelectorEdit r) ++ "()")%string
  /\ Ident_End (Edit_Range (SelectorEdit r)) = End (Range r)
  /\ forall base,
       format_Node (Fset pass) X = Some base ->
       format_Node (Fset pass) (SelectorExpr X Sel)
       = Some (base ++ "." ++ Edit_From (SelectorEdit r))%string ->
       From r = (base ++ "." ++ Edit_From (SelectorEdit r))%string
       /\ To r = (base ++ "." ++ Edit_To (SelectorEdit r))%string.
Proof.
  intro A. apply analyzeSelectorExpr_Some in A as [sel [-> [_ [_ [_ ->]]]]]. cbn.
  repeat (split; [reflexivity|]).
  intros base HX HS. unfold formatNode. rewrite HX, HS. split; reflexivity.
Qed.

Lemma selector_edit_agrees_witness :
  exists r,
    analyzeSelectorExpr (Demo.pass1 Demo.protoInfo []) Demo.t_Field
      (Some (mkIdent 11 "Name")) = Some r
    /\ From r = "t.Field.Name" /\ To r = "t.Field.GetName()"
    /\ Edit_To (SelectorEdit r) = "GetName()".
Proof.
  eexists. split; [reflexivity|].
  destruct (@selector_edit_agrees Demo.host1 (Demo.pass1 Demo.protoInfo []) Demo.t_Field
              (Some (mkIdent 11 "Name")) _ eq_refl) as [_ [_ [T [_ P]]]].
  destruct (P "t.Field" eq_refl eq_refl) as [F G].
  split; [exact F|]. split; [exact G|exact T].
Defined.

(** X8. A printing failure does not hold a report back: [formatNode] turns
    the error into the empty string, so a reported selector whose text
    cannot be printed has an empty [From], and one whose base cannot be
    printed has a [To] that begins with the dot of the accessor call. *)
Theorem printing_failure_keeps_report `{Host} (pass : Pass) (X : Node) (sel : Ident)
    (r : Report) :
  analyzeSelectorExpr pass X (Some sel) = Some r ->
  (format_Node (Fset pass) (SelectorExpr X (Some sel)) = None -> From r = EmptyString)
  /\ (format_Node (Fset pass) X = None -> To r = (".Get" ++ Name sel ++ "()")%string).
Proof.
  intro A. apply analyzeSelectorExpr_Some in A as [sel' [E [_ [_ [_ ->]]]]].
  injection E as <-. cbn. unfold formatNode.
  split; intros ->; reflexivity.
Qed.

Lemma printing_failure_keeps_report_witness :
  exists r,
    analyzeSelectorExpr (Demo.pass1 Demo.protoInfo [])
      (SelectorExpr (Demo.ident 1 "msg") None) (Some (mkIdent 5 "Name")) = Some r
    /\ From r = EmptyString /\ To r = ".GetName()".
Proof.
  eexists. split; [reflexivity|].
  destruct (@printing_failure_keeps_report Demo.host1 (Demo.pass1 Demo.protoInfo [])
              (SelectorExpr (Demo.ident 1 "msg") None) (mkIdent 5 "Name") _ eq_refl)
    as [F T].
  split; [apply F|apply T]; reflexivity.
Defined.

(** X9. A file counts as generated exactly when the text of one of its
    comment groups, the header or any other, is [Code generated] followed
    by anything; a file without comments is never dropped, and a run is the
    run over the files that are not generated. *)
Theorem generated_exactly_when `{Host} :
  (forall f,
      isGeneratedFile f = true
      <-> exists c rest, In c (Comments f)
                         /\ Text c = ("Code generated" ++ rest)%string)
  /\ (forall decls, isGeneratedFile (mkFile [] decls) = false)
  /\ (forall pass mode,
         Run pass mode
         = Run (mkPass (filter (fun f => negb (isGeneratedFile f)) (Files pass))
                  (TypesInfo pass) (Fset pass)) mode).
Proof.
  split; [|split].
  - intro f. unfold isGeneratedFile. rewrite existsb_exists. split.
    + intros [c [I P]]. apply HasPrefix_spec in P as [rest E]. exists c, rest.
      split; assumption.
    + intros [c [rest [I E]]]. exists c. split; [exact I|].
      apply HasPrefix_spec. exists rest. exact E.
  - reflexivity.
  - intros pass mode. unfold Run. cbn [Files].
    f_equal.
    + induction (Files pass) as [|f fs IH]; [reflexivity|]. cbn [filter].
      destruct (negb (isGeneratedFile f)) eqn:G; cbn [filter]; [rewrite G|];
        rewrite <- IH; reflexivity.
Qed.

Lemma generated_exactly_when_witness :
  isGeneratedFile
    (mkFile [mkCommentGroup "Package demo holds messages.";
             mkCommentGroup "Code generated by protoc-gen-go. DO NOT EDIT."]
       [ExprStmt Demo.msg_Name]) = true.
Proof.
  apply (proj1 (@generated_exactly_when Demo.host1)).
  exists (mkCommentGroup "Code generated by protoc-gen-go. DO NOT EDIT."),
    " by protoc-gen-go. DO NOT EDIT.".
  split; [right; left; reflexivity|reflexivity].
Defined.

End Rev1Extra.

(** ** Further properties of the second revision *)

Module Rev2Extra.
Import Ast Types Rev2 Rev2Props.

Section Walks.
Context `{Host}.
Variable pass : Pass.

Lemma hasFix_ToDiagReport (r : Report) : hasFix (ToDiagReport r) = true.
Proof. reflexivity. Qed.

(** The diagnostics [analyse] adds are error diagnostics, without a fix. *)
Lemma analyse_adds_errors (f : PosFilter) (n : Node) :
  filter hasFix (snd (fst (analyse pass f [] n))) = [].
Proof.
  unfold analyse.
  destruct (IsFiltered f (Pos n)); [reflexivity|].
  destruct (Process (TypesInfo pass) f n) as [marked [res|err]]; [|reflexivity].
  repeat match goal with
         | |- context [if ?b then _ else _] => destruct b
         end; reflexivity.
Qed.

Lemma visit_reported (mode : Mode) (n : Node) (st : RunState) :
  reported_ (visit pass mode n st)
  = reported_ st ++ snd (fst (analyse pass (filter_ st) [] n))
    ++ match snd (analyse pass (filter_ st) [] n) with
       | Some r => if Z.eqb mode StandaloneMode then [ToDiagReport r] else []
       | None => []
       end.
Proof.
  unfold visit. rewrite analyse_reported.
  destruct (analyse pass (filter_ st) [] n) as [[f d] [r|]]; cbn.
  - destruct (Z.eqb mode StandaloneMode); cbn.
    + rewrite <- app_assoc. reflexivity.
    + rewrite app_nil_r. destruct (Z.eqb mode GolangciLintMode); reflexivity.
  - rewrite app_nil_r. reflexivity.
Qed.

(** The diagnostics with a fix of a walk are those of the accepted reports,
    in standalone mode, and none in any other mode. *)
Lemma walk_findings (mode : Mode) (nodes : list Node) :
  forall st,
    filter hasFix (reported_ (fold_left (fun s n => visit pass mode n s) nodes st))
    = filter hasFix (reported_ st)
      ++ (if Z.eqb mode StandaloneMode
          then map ToDiagReport (accepted pass (filter_ st) nodes)
          else []).
Proof.
  induction nodes as [|n rest IH]; intro st.
  - cbn. destruct (Z.eqb mode StandaloneMode); rewrite app_nil_r; reflexivity.
  - cbn [fold_left]. rewrite IH, visit_filter, visit_reported, accepted_cons.
    rewrite !filter_app, analyse_adds_errors. cbn [app].
    destruct (snd (analyse pass (filter_ st) [] n)) as [r|];
      destruct (Z.eqb mode StandaloneMode); cbn; rewrite <- ?app_assoc, ?app_nil_r;
      reflexivity.
Qed.

(** The filter and the error diagnostics of a walk are the same in every
    mode. *)
Lemma walk_mode_independent (m1 m2 : Mode) (nodes : list Node) :
  forall st1 st2,
    filter_ st1 = filter_ st2 ->
    filter (fun d => negb (hasFix d)) (reported_ st1)
    = filter (fun d => negb (hasFix d)) (reported_ st2) ->
    filter_ (fold_left (fun s n => visit pass m1 n s) nodes st1)
    = filter_ (fold_left (fun s n => visit pass m2 n s) nodes st2)
    /\ filter (fun d => negb (hasFix d))
         (reported_ (fold_left (fun s n => visit pass m1 n s) nodes st1))
       = filter (fun d => negb (hasFix d))
           (reported_ (fold_left (fun s n => visit pass m2 n s) nodes st2)).
Proof.
  induction nodes as [|n rest IH]; intros st1 st2 F E; [split; assumption|].
  cbn [fold_left]. apply IH.
  - rewrite !visit_filter, F. reflexivity.
  - rewrite !visit_reported, !filter_app, E, F. f_equal. f_equal.
    destruct (snd (analyse pass (filter_ st2) [] n)) as [r|]; [|reflexivity].
    destruct (Z.eqb m1 StandaloneMode), (Z.eqb m2 StandaloneMode); reflexivity.
Qed.

(** The nodes of the accepted reports, in order, are a subsequence of the
    nodes analysed. *)
Lemma accepted_subsequence (nodes : list Node) :
  forall f, subsequence (map node (accepted pass f nodes)) nodes.
Proof.
  induction nodes as [|n rest IH]; intro f; [constructor|].
  rewrite accepted_cons.
  pose proof (analyse_registry pass f [] n) as A.
  destruct (snd (analyse pass f [] n)) as [r|].
  - destruct A as [<- _]. cbn [map]. apply subsequence_keep, IH.
  - apply subsequence_skip, IH.
Qed.

(** Each node analysed adds at most one diagnostic or issue. *)
Lemma walk_outputs_bounded (mode : Mode) (nodes : list Node) :
  forall st,
    (length (reported_ (fold_left (fun s n => visit pass mode n s) nodes st))
     + length (issues_ (fold_left (fun s n => visit pass mode n s) nodes st))
     <= length (reported_ st) + length (issues_ st) + length nodes)%nat.
Proof.
  induction nodes as [|n rest IH]; intro st; cbn [fold_left length]; [lia|].
  specialize (IH (visit pass mode n st)).
  assert (S : (length (reported_ (visit pass mode n st))
               + length (issues_ (visit pass mode n st))
               <= length (reported_ st) + length (issues_ st) + 1)%nat).
  { unfold visit, analyse.
    destruct (IsFiltered (filter_ st) (Pos n)); [cbn; lia|].
    destruct (Process (TypesInfo pass) (filter_ st) n) as [marked [res|err]];
      [|cbn; rewrite length_app; cbn; lia].
    repeat match goal with
           | |- context [if ?b then _ else _] => destruct b
           end; cbn; rewrite ?length_app; cbn; lia. }
  lia.
Qed.

End Walks.

(** X10. What it takes for [analyse] to return a report: the position of the
    node is not filtered before [Process] runs nor after it, [Process]
    answers a result and that result is not skipped, and the range is not
    already replaced.  The report then carries the node and that result, the
    range is registered and nothing is handed to [pass.Report]. *)
Theorem report_only_when `{Host} (pass : Pass) (f f' : PosFilter)
    (reported reported' : list Diagnostic) (n : Node) (r : Report) :
  analyse pass f reported n = (f', reported', Some r) ->
  exists marked,
    IsFiltered f (Pos n) = false
    /\ Process (TypesInfo pass) f n = (marked, inl (result r))
    /\ IsFiltered (fold_left AddPos marked f) (Pos n) = false
    /\ Skipped (result r) = false
    /\ IsAlreadyReplaced (fold_left AddPos marked f) (Pos n) (End n) = false
    /\ node r = n
    /\ f' = AddAlreadyReplaced (fold_left AddPos marked f) (Pos n) (End n)
    /\ reported' = reported.
Proof.
  unfold analyse.
  destruct (IsFiltered f (Pos n)) eqn:F; [discriminate|].
  destruct (Process (TypesInfo pass) f n) as [marked [res|err]]; [|discriminate].
  destruct (IsFiltered (fold_left AddPos marked f) (Pos n)) eqn:F2; [discriminate|].
  destruct (Skipped res) eqn:S; [discriminate|].
  destruct (IsAlreadyReplaced (fold_left AddPos marked f) (Pos n) (End n)) eqn:R;
    [discriminate|].
  intro E. injection E as <- <- <-. exists marked. cbn. repeat split; assumption.
Qed.

Lemma report_only_when_witness :
  exists marked,
    Demo.specProcess Demo.protoInfo NewPosFilter Demo.msg_Name
    = (marked, inl {| From := "msg.Name"; To := "msg.GetName()" |}).
Proof.
  destruct (@report_only_when Demo.host2 (Demo.pass2 Demo.protoInfo [])
              NewPosFilter (AddAlreadyReplaced NewPosFilter 1 9) [] [] Demo.msg_Name
              {| node := Demo.msg_Name;
                 result := {| From := "msg.Name"; To := "msg.GetName()" |} |} eq_refl)
    as [marked [_ [P _]]].
  exists marked. exact P.
Defined.

(** X11. The mode only chooses where a report goes.  The filter at the end
    of a run and the error diagnostics are the same in every mode; in
    standalone mode the diagnostics that carry a fix are those of the
    accepted reports, in order, and there is no issue; in any other mode no
    diagnostic carries a fix, and outside golangci-lint mode there is no
    issue, so a mode that is neither drops the reports although their ranges
    are registered.  The analyzer of [NewAnalyzer] hands over the diagnostics
    of the standalone run and returns neither a result nor an error. *)
Theorem mode_only_routes_reports `{Host} (pass : Pass) :
  (forall m1 m2,
      filter_ (Run pass m1) = filter_ (Run pass m2)
      /\ filter (fun d => negb (hasFix d)) (reported_ (Run pass m1))
         = filter (fun d => negb (hasFix d)) (reported_ (Run pass m2)))
  /\ filter hasFix (reported_ (Run pass StandaloneMode))
     = map ToDiagReport (accepted pass NewPosFilter (candidates pass))
  /\ issues_ (Run pass StandaloneMode) = []
  /\ (forall m, m <> StandaloneMode -> filter hasFix (reported_ (Run pass m)) = [])
  /\ (forall m, m <> GolangciLintMode -> issues_ (Run pass m) = [])
  /\ fst (Analyzer_Run NewAnalyzer pass) = reported_ (Run pass StandaloneMode)
  /\ snd (Analyzer_Run NewAnalyzer pass) = (None, None).
Proof.
  split; [|split; [|split; [|split; [|split; [|split]]]]].
  - intros m1 m2. unfold Run, Preorder. apply walk_mode_independent; reflexivity.
  - unfold Run, Preorder. rewrite walk_findings. reflexivity.
  - unfold Run, Preorder. rewrite walk_issues. reflexivity.
  - intros m N. unfold Run, Preorder. rewrite walk_findings.
    apply Z.eqb_neq in N. rewrite N. reflexivity.
  - intros m N. unfold Run, Preorder. rewrite walk_issues.
    apply Z.eqb_neq in N. rewrite N. reflexivity.
  - reflexivity.
  - reflexivity.
Qed.

Lemma mode_only_routes_reports_witness :
  filter hasFix (reported_ (Run (Demo.pass2 Demo.protoInfo [Demo.demoFile]) 7)) = []
  /\ issues_ (Run (Demo.pass2 Demo.protoInfo [Demo.demoFile]) 7) = []
  /\ alreadyReplaced (filter_ (Run (Demo.pass2 Demo.protoInfo [Demo.demoFile]) 7))
     = alreadyReplaced
         (filter_ (Run (Demo.pass2 Demo.protoInfo [Demo.demoFile]) StandaloneMode)).
Proof.
  pose proof (@mode_only_routes_reports Demo.host2
                (Demo.pass2 Demo.protoInfo [Demo.demoFile]))
    as [M [_ [_ [F [I _]]]]].
  split; [apply F; discriminate|]. split; [apply I; discriminate|].
  rewrite (proj1 (M 7 StandaloneMode)). reflexivity.
Defined.

(** X12. The second revision drops generated files as well: a file with a
    comment group whose text begins with [Code generated] adds no candidate
    node, and the run over the files of a pass is the run without it. *)
Theorem generated_files_not_walked `{Host} (g : File) (before after : list File)
    (info : option Info) (fset : FileSet) (mode : Mode) :
  isGeneratedFile g = true ->
  candidates (mkPass (before ++ g :: after) info fset)
  = candidates (mkPass (before ++ after) info fset)
  /\ Run (mkPass (before ++ g :: after) info fset) mode
     = Run (mkPass (before ++ after) info fset) mode.
Proof.
  intro G. split.
  - unfold candidates. cbn [Files]. rewrite !filter_app. cbn [filter].
    rewrite G. reflexivity.
  - unfold Run. cbn [Files]. rewrite !filter_app. cbn [filter]. rewrite G. reflexivity.
Qed.

Lemma generated_files_not_walked_witness :
  Run (Demo.pass2 Demo.protoInfo
         [mkFile [mkCommentGroup "Code generated by protoc-gen-go. DO NOT EDIT."]
            [ExprStmt Demo.msg_Name]]) GolangciLintMode
  = Run (Demo.pass2 Demo.protoInfo []) GolangciLintMode.
Proof.
  apply (@generated_files_not_walked Demo.host2
           (mkFile [mkCommentGroup "Code generated by protoc-gen-go. DO NOT EDIT."]
              [ExprStmt Demo.msg_Name]) [] [] Demo.protoInfo tt GolangciLintMode).
  reflexivity.
Defined.

(** X13. Reports follow the walk: the nodes of the accepted reports of a
    run, in the order of the reports, are a subsequence of the candidate
    nodes, so a candidate is reported at most once per visit and never out
    of order; and a run hands over at most one diagnostic or issue per
    candidate node. *)
Theorem reports_follow_the_walk `{Host} (pass : Pass) (mode : Mode) :
  subsequence (map node (accepted pass NewPosFilter (candidates pass))) (candidates pass)
  /\ (length (reported_ (Run pass mode)) + length (issues_ (Run pass mode))
      <= length (candidates pass))%nat.
Proof.
  split.
  - apply accepted_subsequence.
  - unfold Run, Preorder.
    pose proof (walk_outputs_bounded pass mode (candidates pass)
                  {| filter_ := NewPosFilter; reported_ := []; issues_ := [] |}) as B.
    cbn [reported_ issues_ length] in B. exact B.
Qed.

End Rev2Extra.
